(** * The 32-aspect self-clock synchronisation script, embedded in Rocq

    A shallow embedding of [scripts/self_clock_sync.py].  The script is a
    single pass: it loads two JSON documents, recomputes every aspect
    record with a closed formula, aggregates two scalars, rewrites the
    state file and extends the log file.

    Python floats are IEEE-754 binary64 numbers and are modelled by the
    primitive floats of the kernel; Python integers are unbounded and are
    modelled by [Z].  Dictionaries keep their insertion order, so they
    are association lists.  The file system is a finite map from paths to
    nodes. *)

From Stdlib Require Import ZArith List String Bool Lia.
From Stdlib Require Import Floats.
From stdpp Require Import gmap strings.

Set Warnings "-inexact-float,-register-all".
Local Open Scope Z_scope.

(** ** The Python runtime: exceptions, values, numbers *)

Module Py.

(** The exception classes the script can meet.  [OutsideModel] marks the
    inputs whose Python behaviour this development does not describe
    (see [dict_of]); no statement below is about them. *)
Inductive exn :=
| KeyError | TypeError | ValueError | AttributeError
| ZeroDivisionError | OverflowError
| IsADirectoryError | FileExistsError | UnicodeDecodeError
| OutsideModel.

Inductive result (A : Type) :=
| Ok (a : A)
| Raise (e : exn).
Arguments Ok {A} a.
Arguments Raise {A} e.

Definition bind {A B} (r : result A) (k : A -> result B) : result B :=
  match r with
  | Ok a => k a
  | Raise e => Raise e
  end.

(** What [json.load] can return: the Python image of a JSON document. *)
Inductive value :=
| VNone
| VBool (b : bool)
| VInt (z : Z)
| VFloat (f : float)
| VStr (s : string)
| VList (l : list value)
| VDict (d : list (string * value)).

Abbreviation dict := (list (string * value)).

(** [d.get(k)]: the value bound to [k], if any. *)
Fixpoint dict_get (d : dict) (k : string) : option value :=
  match d with
  | [] => None
  | (k', v) :: d' => if String.eqb k' k then Some v else dict_get d' k
  end.

(** [d[k] = v]: an existing key keeps its position, a new key goes last. *)
Fixpoint dict_set (d : dict) (k : string) (v : value) : dict :=
  match d with
  | [] => [(k, v)]
  | (k', v') :: d' =>
      if String.eqb k' k then (k', v) :: d' else (k', v') :: dict_set d' k v
  end.

(** [d[k]]. *)
Definition getitem (d : dict) (k : string) : result value :=
  match dict_get d k with
  | Some v => Ok v
  | None => Raise KeyError
  end.

(** [d.get(k, default)]. *)
Definition get_default (d : dict) (k : string) (default : value) : value :=
  match dict_get d k with
  | Some v => v
  | None => default
  end.

(** The numbers of Python: [int] (with [bool] as a subtype) and [float]. *)
Inductive num :=
| NInt (z : Z)
| NFloat (f : float).

Definition as_num (v : value) : result num :=
  match v with
  | VBool b => Ok (NInt (Z.b2z b))
  | VInt z => Ok (NInt z)
  | VFloat f => Ok (NFloat f)
  | _ => Raise TypeError
  end.

(** An integer as an unrounded binary number with exponent zero. *)
Definition Z2SF (negative_zero : bool) (z : Z) : spec_float :=
  match z with
  | Z0 => S754_zero negative_zero
  | Zpos p => S754_finite false p 0
  | Zneg p => S754_finite true p 0
  end.

(** A correctly rounded result, or [OverflowError] when it is out of
    range. *)
Definition finite_or_overflow (x : spec_float) : result float :=
  match x with
  | S754_infinity _ => Raise OverflowError
  | _ => Ok (SF2Prim x)
  end.

(** [float(z)] for an integer: round to nearest, ties to even. *)
Definition float_of_int (z : Z) : result float :=
  finite_or_overflow (binary_normalize prec emax z 0 false).

(** The float nearest to an integer. *)
Definition nearest_float (z : Z) : float :=
  SF2Prim (binary_normalize prec emax z 0 false).

Definition to_float (a : num) : result float :=
  match a with
  | NInt z => float_of_int z
  | NFloat f => Ok f
  end.

(** Float division: a zero divisor raises. *)
Definition float_div (a b : float) : result float :=
  if PrimFloat.eqb b 0 then Raise ZeroDivisionError else Ok (a / b)%float.

(** [a / b]: true division.  Two integers give the correctly rounded
    quotient; otherwise both operands are converted to floats first. *)
Definition num_truediv (a b : num) : result float :=
  match a, b with
  | NInt x, NInt y =>
      if y =? 0 then Raise ZeroDivisionError
      else finite_or_overflow
             (SFdiv prec emax (Z2SF false x) (Z2SF false y))
  | _, _ =>
      bind (to_float a) (fun fa =>
      bind (to_float b) (fun fb => float_div fa fb))
  end.

Definition num_arith (fz : Z -> Z -> Z) (ff : float -> float -> float)
    (a b : num) : result num :=
  match a, b with
  | NInt x, NInt y => Ok (NInt (fz x y))
  | _, _ =>
      bind (to_float a) (fun fa =>
      bind (to_float b) (fun fb => Ok (NFloat (ff fa fb))))
  end.

Definition num_add := num_arith Z.add PrimFloat.add.
Definition num_sub := num_arith Z.sub PrimFloat.sub.

(** The exact order between an integer and a float, [None] for NaN. *)
Definition compare_int_float (z : Z) (f : float) : option comparison :=
  match Prim2SF f with
  | S754_nan => None
  | S754_infinity s => Some (if s then Gt else Lt)
  | S754_zero _ => Some (z ?= 0)
  | S754_finite s m e =>
      let v := if s then Zneg m else Zpos m in
      Some (if 0 <=? e then z ?= Z.shiftl v e
            else Z.shiftl z (- e) ?= v)
  end.

(** [a <= b]: integers and floats are compared by value, without
    rounding the integer. *)
Definition num_le (a b : num) : bool :=
  match a, b with
  | NInt x, NInt y => x <=? y
  | NFloat x, NFloat y => PrimFloat.leb x y
  | NInt x, NFloat y =>
      match compare_int_float x y with
      | Some (Lt | Eq) => true
      | _ => false
      end
  | NFloat x, NInt y =>
      match compare_int_float y x with
      | Some (Gt | Eq) => true
      | _ => false
      end
  end.

(** The integer nearest to [n * 2^e], ties to even ([n] non-negative). *)
Definition round_half_even_scaled (n e : Z) : Z :=
  if 0 <=? e then Z.shiftl n e
  else
    let d := Z.shiftl 1 (- e) in
    let q := n / d in
    let r := n mod d in
    match 2 * r ?= d with
    | Lt => q
    | Gt => q + 1
    | Eq => if Z.even q then q else q + 1
    end.

(** [round(x, ndigits)] for a float and [ndigits >= 0]: the exact value
    of [x] is rounded to [ndigits] decimals, ties to even, and the
    decimal is converted back to the nearest float.  Zeros, infinities
    and NaN round to themselves, and so does every float once
    [ndigits] exceeds 323. *)
Definition py_round (x : float) (ndigits : N) : float :=
  if (323 <? ndigits)%N then x
  else
    match Prim2SF x with
    | S754_finite s m e =>
        let p := 10 ^ Z.of_N ndigits in
        let k := round_half_even_scaled (Zpos m * p) e in
        SF2Prim (SFdiv prec emax (Z2SF s (if s then - k else k))
                   (Z2SF false p))
    | _ => x
    end.

End Py.

(** ** The platform: what the interpreter takes from the C library *)

(** [math.sin] and [math.cos] call the C library, and [float(s)] on a
    string calls its decimal parser; none of them is code of the script,
    so they are parameters of the development. *)
Class Platform := {
  libm_sin : float -> float;
  libm_cos : float -> float;
  parse_float : string -> option float;
}.

(** ** The file system *)

(** What reading a file as UTF-8 text and handing it to [json.load]
    yields: the bytes are not UTF-8, the text is not JSON, or the text is
    a JSON document.  [json.dump] followed by [json.load] gives back the
    value that was written, so a written file holds a [Document]. *)
Inductive content :=
| Undecodable
| Malformed
| Document (v : Py.value).

Inductive node :=
| Dir
| File (c : content).

Abbreviation fs := (gmap string node).

(** Paths, relative to the repository root. *)
Definition CODEX_FILE : string := "UPS_Codex_Δι-11∞_LivingFramework.json".
Definition DATA_DIR : string := "data".
Definition SELF_CLOCK_FILE : string := "data/self_clock_state.json".
Definition LOG_FILE : string := "self_clock_log.json".

(** ** Programs that read and write files and may raise *)

Definition M (A : Type) : Type := fs -> fs * Py.result A.

Definition ret {A} (a : A) : M A := fun σ => (σ, Py.Ok a).

Definition raise {A} (e : Py.exn) : M A := fun σ => (σ, Py.Raise e).

Definition bindM {A B} (m : M A) (k : A -> M B) : M B :=
  fun σ =>
    match m σ with
    | (σ', Py.Ok a) => k a σ'
    | (σ', Py.Raise e) => (σ', Py.Raise e)
    end.

Definition lift {A} (r : Py.result A) : M A := fun σ => (σ, r).

Declare Scope py_scope.
Delimit Scope py_scope with py.
Notation "x <- e1 ;; e2" := (Py.bind e1 (fun x => e2))
  (at level 100, e1 at next level, right associativity) : py_scope.

Declare Scope io_scope.
Delimit Scope io_scope with io.
Notation "x <- e1 ;; e2" := (bindM e1 (fun x => e2))
  (at level 100, e1 at next level, right associativity) : io_scope.
Notation "e1 ;; e2" := (bindM e1 (fun _ => e2))
  (at level 100, right associativity) : io_scope.

(** ** The script *)

Module SelfClock.
Import Py.

(** [phi()]: [(1 + 5 ** 0.5) / 2].  The power is computed by the C
    library's [pow]; at this argument it returns the correctly rounded
    square root, [0x1.1e3779b97f4a8p+1], which is what [PrimFloat.sqrt]
    computes. *)
Definition phi : float := ((1 + PrimFloat.sqrt 5) / 2)%float.

(** [math.pi]. *)
Definition math_pi : float := 0x1.921fb54442d18p+1%float.

(** [load_json(path, fallback)].  [path.exists()] is true for a
    directory as well, which [path.open] then refuses; decoding the
    bytes happens inside [json.load], outside the one exception the
    handler names. *)
Definition load_json (path : string) (fallback : value) : M value :=
  fun σ =>
    match σ !! path with
    | None => (σ, Ok fallback)
    | Some Dir => (σ, Raise IsADirectoryError)
    | Some (File Undecodable) => (σ, Raise UnicodeDecodeError)
    | Some (File Malformed) => (σ, Ok fallback)
    | Some (File (Document v)) => (σ, Ok v)
    end.

(** [path.mkdir(parents=True, exist_ok=True)] below the repository
    root. *)
Definition mkdir (path : string) : M unit :=
  fun σ =>
    match σ !! path with
    | None => (<[path := Dir]> σ, Ok tt)
    | Some Dir => (σ, Ok tt)
    | Some (File _) => (σ, Raise FileExistsError)
    end.

(** [with path.open("w") as handle: json.dump(v, handle, ...)], in a
    directory that exists. *)
Definition write_json (path : string) (v : value) : M unit :=
  fun σ =>
    match σ !! path with
    | Some Dir => (σ, Raise IsADirectoryError)
    | _ => (<[path := File (Document v)]> σ, Ok tt)
    end.

Definition DEFAULT_ASPECTS : list string := [
  "Awareness";
  "Attention";
  "Perception (Visual)";
  "Perception (Auditory)";
  "Perception (Somatosensory)";
  "Interoception";
  "Proprioception";
  "Arousal/Vigilance";
  "Working Memory";
  "Episodic Memory";
  "Semantic Memory";
  "Language/Symbolics";
  "Imagination/Visualization";
  "Mental Time Travel";
  "Planning/Prospection";
  "Decision-Making";
  "Inhibition/Self-Control";
  "Cognitive Flexibility";
  "Meta-Awareness";
  "Self-Model/Identity";
  "Emotion Processing";
  "Motivation/Drive";
  "Reward/Valuation";
  "Empathy/Theory of Mind";
  "Social Cognition";
  "Moral Reasoning";
  "Spatial Cognition";
  "Rhythm/Timing";
  "Creativity/Divergence";
  "Learning/Plasticity";
  "Dreaming/Imagery";
  "Narrative/Meaning-Making"
]%string.

(** [enumerate(l)], counting from [start]. *)
Fixpoint enumerate {A} (start : Z) (l : list A) : list (Z * A) :=
  match l with
  | [] => []
  | x :: l' => (start, x) :: enumerate (start + 1) l'
  end.

(** The record the loop of [default_self_clock_state] builds for one
    name. *)
Definition default_aspect (index : Z) (name : string) : dict :=
  [ ("name", VStr name);
    ("activation", VInt 0);
    ("ring", VInt (index / 4 + 1));
    ("stage", VInt (index mod 12 + 1)) ]%string.

Definition default_aspects : list dict :=
  map (fun '(index, name) => default_aspect index name)
      (enumerate 0 DEFAULT_ASPECTS).

Definition default_self_clock_state : value :=
  VDict [ ("aspects", VList (map VDict default_aspects)) ]%string.

(** The fallback of the codex read. *)
Definition default_codex : value :=
  VDict [ ("coherence_index_CI", VFloat 0.96);
          ("compassion_constraint_Cf", VFloat 0.94);
          ("ϕ_constant", VFloat phi) ]%string.

(** [normalize(value, minimum, maximum)]. *)
Definition normalize (value minimum maximum : num) : result float :=
  if num_le maximum minimum then Ok 0%float
  else
    (a <- num_sub value minimum;;
     b <- num_sub maximum minimum;;
     num_truediv a b)%py.

(** The wrapper the [math] module puts around a C function of one
    argument that cannot overflow: an invalid result is a
    [ValueError]. *)
Definition math_1 (func : float -> float) (x : float) : result float :=
  let r := func x in
  if is_nan r && negb (is_nan x) then Raise ValueError
  else if is_infinity r && is_finite x then Raise ValueError
  else Ok r.

Section Platform.
Context {platform : Platform}.

Definition math_sin : float -> result float := math_1 libm_sin.
Definition math_cos : float -> result float := math_1 libm_cos.

(** The eight components of [field_vector], in the order of the
    dictionary display; an exception raised by a component leaves the
    later ones unevaluated. *)
Definition field_vector (ring stage : num) (ci cf : float) : result dict :=
  let phi_value := phi in
  (g <- normalize ring (NInt 1) (NInt 8);;
   r <- normalize stage (NInt 1) (NInt 12);;
   p <- float_div ci phi_value;;
   a <- float_div cf phi_value;;
   s12 <- num_truediv stage (NInt 12);;
   n <- math_sin (s12 * math_pi);;
   r8 <- num_truediv ring (NInt 8);;
   t <- math_cos (r8 * math_pi / 2);;
   rs <- num_add ring stage;;
   cx <- num_truediv rs (NInt (8 + 12));;
   Ok [ ("G", VFloat (py_round g 3));
        ("R", VFloat (py_round r 3));
        ("P", VFloat (py_round p 3));
        ("A", VFloat (py_round a 3));
        ("N", VFloat (py_round n 3));
        ("T", VFloat (py_round t 3));
        ("Cx", VFloat (py_round cx 3));
        ("Id", VFloat (py_round (1 - abs (ci - cf)) 3)) ]%string)%py.

(** [update_aspect(aspect, ci, cf)].  The integer literals that meet a
    float ([1 +], [* 100], [/ 2]) are written as the floats they
    convert to. *)
Definition update_aspect (aspect : dict) (ci cf : float) : result dict :=
  (ring <- getitem aspect "ring";;
   stage <- getitem aspect "stage";;
   let phi_value := phi in
   q <- float_div (ci * cf) phi_value;;
   ring <- as_num ring;;
   r8 <- num_truediv ring (NInt 8);;
   let resonance := (q * (1 + r8 * 0.05))%float in
   stage <- as_num stage;;
   s12 <- num_truediv stage (NInt 12);;
   let aspect :=
     dict_set aspect "activation"
              (VFloat (py_round (resonance * s12 * 100) 2)) in
   fv <- field_vector ring stage ci cf;;
   Ok (dict_set aspect "field_vector" (VDict fv)))%py.


(** [float(v)]. *)
Definition py_float (v : value) : result float :=
  match v with
  | VFloat f => Ok f
  | VInt z => float_of_int z
  | VBool b => float_of_int (Z.b2z b)
  | VStr s =>
      match parse_float s with
      | Some f => Ok f
      | None => Raise ValueError
      end
  | _ => Raise TypeError
  end.

(** [v.get(k, default)]: only a dictionary has the method. *)
Definition value_get (v : value) (k : string) (default : value)
  : result value :=
  match v with
  | VDict d => Ok (get_default d k default)
  | _ => Raise AttributeError
  end.

(** [v[k]] for a string [k]. *)
Definition subscript (v : value) (k : string) : result value :=
  match v with
  | VDict d => getitem d k
  | _ => Raise TypeError
  end.

(** [for x in v]: a list yields its items, a dictionary its keys, a
    text its characters (here its bytes: the script hands each to
    [dict], which rejects the first of either). *)
Definition iterate (v : value) : result (list value) :=
  match v with
  | VList l => Ok l
  | VDict d => Ok (map (fun kv => VStr (fst kv)) d)
  | VStr s => Ok (map (fun c => VStr (String c EmptyString))
                      (list_ascii_of_string s))
  | _ => Raise TypeError
  end.

(** [dict(v)]: a copy of a dictionary.  An empty sequence gives the
    empty dictionary and a non-empty text is refused, its first
    character not being a pair.  A non-empty list is read as a list of
    key/value pairs, whose keys need not be strings: those inputs are
    left out. *)
Definition dict_of (v : value) : result dict :=
  match v with
  | VDict d => Ok d
  | VList [] => Ok []
  | VList (_ :: _) => Raise OutsideModel
  | VStr EmptyString => Ok []
  | VStr (String _ _) => Raise ValueError
  | _ => Raise TypeError
  end.

(** A list comprehension whose body may raise. *)
Fixpoint mapM {A B} (f : A -> result B) (l : list A) : result (list B) :=
  match l with
  | [] => Ok []
  | x :: l' => (y <- f x;; ys <- mapM f l';; Ok (y :: ys))%py
  end.

(** [sum(term(a) for a in l)], the running total being [acc]: the
    terms are added from left to right with [+]. *)
Fixpoint sum_from (term : dict -> result num) (acc : num) (l : list dict)
  : result num :=
  match l with
  | [] => Ok acc
  | a :: l' => (x <- term a;; acc' <- num_add acc x;;
                sum_from term acc' l')%py
  end.

(** [aspect["activation"]], as an operand of [+]. *)
Definition activation_of (aspect : dict) : result num :=
  (v <- getitem aspect "activation";; as_num v)%py.

(** [aspect["field_vector"]["A"] + aspect["field_vector"]["N"]]. *)
Definition energy_matter_of (aspect : dict) : result num :=
  (fv <- getitem aspect "field_vector";;
   a <- subscript fv "A";;
   fv' <- getitem aspect "field_vector";;
   n <- subscript fv' "N";;
   a <- as_num a;;
   n <- as_num n;;
   num_add a n)%py.

(** [round(x, ndigits)] for a number: an integer is its own
    rounding. *)
Definition num_round (x : num) (ndigits : N) : num :=
  match x with
  | NInt z => NInt z
  | NFloat f => NFloat (py_round f ndigits)
  end.

Definition of_num (x : num) : value :=
  match x with
  | NInt z => VInt z
  | NFloat f => VFloat f
  end.

(** [len(l)]. *)
Definition len {A} (l : list A) : Z := Z.of_nat (length l).

(** The two aggregates of section 4 of the script. *)
Definition compute_SCI (UPDATED_ASPECTS : list dict) : result float :=
  (total <- sum_from activation_of (NInt 0) UPDATED_ASPECTS;;
   mean <- num_truediv total (NInt (len UPDATED_ASPECTS));;
   Ok (py_round mean 3))%py.

Definition compute_ENERGY_MATTER_SUM (UPDATED_ASPECTS : list dict)
  : result num :=
  (total <- sum_from energy_matter_of (NInt 0) UPDATED_ASPECTS;;
   Ok (num_round total 3))%py.

(** [x.append(entry)]: only a list has the method. *)
Definition append (x : value) (entry : value) : result (list value) :=
  match x with
  | VList l => Ok (l ++ [entry])
  | _ => Raise AttributeError
  end.

(** The dictionary display bound to [self_clock_state]. *)
Definition state_payload (TIMESTAMP : string) (SCI : float)
    (ENERGY_MATTER_SUM : num) (signature : value)
    (UPDATED_ASPECTS : list dict) : dict :=
  [ ("timestamp", VStr TIMESTAMP);
    ("ϕ_constant", VFloat (py_round phi 6));
    ("semantic_coherence_index_SCI", VFloat SCI);
    ("energy_matter_sum", of_num ENERGY_MATTER_SUM);
    ("codex_reference_signature", signature);
    ("aspects", VList (map VDict UPDATED_ASPECTS)) ]%string.

(** The dictionary display appended to [log_entries]. *)
Definition log_entry (TIMESTAMP : string) (SCI : float)
    (ENERGY_MATTER_SUM : num) : value :=
  VDict [ ("timestamp", VStr TIMESTAMP);
          ("SCI", VFloat SCI);
          ("ΣE", of_num ENERGY_MATTER_SUM) ]%string.

(** The names the module binds while it runs. *)
Record globals := {
  codex_data : value;
  current_data : value;
  CI : float;
  CF : float;
  UPDATED_ASPECTS : list dict;
  SCI : float;
  ENERGY_MATTER_SUM : num;
  self_clock_state : dict;
  log_entries : list value;
}.

(** The module body, from the first read to the last write.
    [TIMESTAMP] is the clock reading taken when the module starts.
    The closing report on the console is left out. *)
Definition script (TIMESTAMP : string) : M globals :=
  (codex_data <- load_json CODEX_FILE default_codex;;
   current_data <- load_json SELF_CLOCK_FILE default_self_clock_state;;
   CI <- lift (v <- value_get codex_data "coherence_index_CI"
                              (VFloat 0.96);; py_float v)%py;;
   CF <- lift (v <- value_get codex_data "compassion_constraint_Cf"
                              (VFloat 0.94);; py_float v)%py;;
   UPDATED_ASPECTS <-
     lift (aspects <- subscript current_data "aspects";;
           aspects <- iterate aspects;;
           mapM (fun aspect => d <- dict_of aspect;;
                               update_aspect d CI CF) aspects)%py;;
   SCI <- lift (compute_SCI UPDATED_ASPECTS);;
   ENERGY_MATTER_SUM <- lift (compute_ENERGY_MATTER_SUM UPDATED_ASPECTS);;
   mkdir DATA_DIR;;
   signature <- lift (value_get codex_data "codex_sync_signature"
                                (VStr "N/A"));;
   let self_clock_state :=
     state_payload TIMESTAMP SCI ENERGY_MATTER_SUM signature
                   UPDATED_ASPECTS in
   write_json SELF_CLOCK_FILE (VDict self_clock_state);;
   log_entries <- load_json LOG_FILE (VList []);;
   log_entries <-
     lift (append log_entries
             (log_entry TIMESTAMP SCI ENERGY_MATTER_SUM));;
   write_json LOG_FILE (VList log_entries);;
   ret {| codex_data := codex_data;
          current_data := current_data;
          CI := CI;
          CF := CF;
          UPDATED_ASPECTS := UPDATED_ASPECTS;
          SCI := SCI;
          ENERGY_MATTER_SUM := ENERGY_MATTER_SUM;
          self_clock_state := self_clock_state;
          log_entries := log_entries |})%io.

(** The script run once per clock reading, one run after the other. *)
Fixpoint run_all (timestamps : list string) : M (list globals) :=
  match timestamps with
  | [] => ret []
  | t :: ts => (g <- script t;; gs <- run_all ts;; ret (g :: gs))%io
  end.

End Platform.

(** The entries the next run finds in the log: none when the file is
    missing or is not JSON. *)
Definition log_of (σ : fs) : option (list value) :=
  match σ !! LOG_FILE with
  | None | Some (File Malformed) => Some []
  | Some (File (Document (VList l))) => Some l
  | _ => None
  end.

(** A dictionary shaped like a [field_vector]: the eight components, each
    a float. *)
Definition field_vector_keys (fv : dict) : Prop :=
  exists g r p a n t cx id : float,
    fv = [ ("G", VFloat g); ("R", VFloat r); ("P", VFloat p);
           ("A", VFloat a); ("N", VFloat n); ("T", VFloat t);
           ("Cx", VFloat cx); ("Id", VFloat id) ]%string.

End SelfClock.

(** ** The formulas of the specification *)

(** Definitions that follow the words of the specification, over floats:
    the formula block of the Harmonizer and the two aggregates.  They are
    compared with the script below. *)
Module Spec.
Import Py.
Local Open Scope float_scope.

Definition phi : float := (1 + sqrt 5) / 2.

Definition pi : float := SelfClock.math_pi.

Definition normalize (v lo hi : float) : float :=
  if hi <=? lo then 0 else (v - lo) / (hi - lo).

Definition resonance (CI CF ring : float) : float :=
  CI * CF / phi * (1 + (ring / 8) * 0.05).

Definition activation (CI CF ring stage : float) : float :=
  py_round (resonance CI CF ring * (stage / 12) * 100) 2.

Definition field_vector {platform : Platform} (CI CF ring stage : float)
  : dict :=
  [ ("G", VFloat (py_round (normalize ring 1 8) 3));
    ("R", VFloat (py_round (normalize stage 1 12) 3));
    ("P", VFloat (py_round (CI / phi) 3));
    ("A", VFloat (py_round (CF / phi) 3));
    ("N", VFloat (py_round (libm_sin (stage / 12 * pi)) 3));
    ("T", VFloat (py_round (libm_cos (ring / 8 * pi / 2)) 3));
    ("Cx", VFloat (py_round ((ring + stage) / 20) 3));
    ("Id", VFloat (py_round (1 - abs (CI - CF)) 3)) ]%string.

(** [sum] of floats, from left to right. *)
Definition sum (l : list float) : float := fold_left add l 0.

Definition mean (l : list float) : float :=
  sum l / nearest_float (Z.of_nat (length l)).

Definition SCI (activations : list float) : float :=
  py_round (mean activations) 3.

(** One term [A + N] per aspect. *)
Definition energy_matter_sum (fields : list (float * float)) : float :=
  py_round (sum (map (fun an => fst an + snd an) fields)) 3.

End Spec.

(** ** Numbers the formulas are checked on *)

(** The number a field holds, as a float. *)
Definition float_value (x : Py.num) : float :=
  match x with
  | Py.NInt z => Py.nearest_float z
  | Py.NFloat f => f
  end.

(** The integers on which the integer operations of the script are
    compared with the float formulas by evaluation: those of magnitude at
    most 64, which cover the rings 1..8 and the stages 1..12.  Every
    float is admitted. *)
Definition moderate (x : Py.num) : Prop :=
  match x with
  | Py.NInt z => -64 <= z <= 64
  | Py.NFloat _ => True
  end.

Definition int_range : list Z :=
  map (fun i => Z.of_nat i - 64) (seq 0 129).

Definition float_result_eqb (a b : Py.result float) : bool :=
  match a, b with
  | Py.Ok x, Py.Ok y => Leibniz.eqb x y
  | _, _ => false
  end.

(** A spec float that is positive (sign [s]) and not zero: what rounding
    a positive number gives. *)
Definition positive_or_infinite (s : bool) (x : spec_float) : Prop :=
  match x with
  | S754_finite s' _ _ | S754_infinity s' => s' = s
  | _ => False
  end.

(** ** Paths a program leaves alone, files that hold nothing to read *)

(** The program [m] never changes what is at [p], whether it returns or
    raises. *)
Definition leaves {A} (p : string) (m : M A) : Prop :=
  forall (σ σ' : fs) (r : Py.result A), m σ = (σ', r) -> σ' !! p = σ !! p.

(** The exceptions that only the part of the script before its first
    write can raise: those of the computation, and the one of [mkdir]. *)
Definition raised_before_any_write (e : Py.exn) : bool :=
  match e with
  | Py.KeyError | Py.TypeError | Py.ValueError | Py.ZeroDivisionError
  | Py.OverflowError | Py.FileExistsError => true
  | _ => false
  end.

(** What reading the log and appending to it raises when the log path
    holds [n]: a directory cannot be opened, bytes that are not UTF-8
    cannot be decoded, and a JSON document other than an array has no
    [append]. *)
Definition log_failure (n : node) : option Py.exn :=
  match n with
  | Dir => Some Py.IsADirectoryError
  | File Undecodable => Some Py.UnicodeDecodeError
  | File Malformed => None
  | File (Document (Py.VList _)) => None
  | File (Document _) => Some Py.AttributeError
  end.

(** A path with nothing to read: no file, or a file that is not JSON. *)
Definition nothing_to_read (o : option node) : Prop :=
  o = None \/ o = Some (File Malformed).

(** Two file systems that are the same except that at [p] each has
    nothing to read. *)
Definition same_but_unreadable (p : string) (σa σb : fs) : Prop :=
  forall q : string,
    σa !! q = σb !! q
    \/ (q = p /\ nothing_to_read (σa !! q) /\ nothing_to_read (σb !! q)).

(** The program [m] does not tell such file systems apart: same outcome,
    and the file systems it leaves are again the same but for [p]. *)
Definition respects {A} (p : string) (m : M A) : Prop :=
  forall σa σb : fs,
    same_but_unreadable p σa σb ->
    snd (m σa) = snd (m σb)
    /\ same_but_unreadable p (fst (m σa)) (fst (m σb)).

(** The sine and the cosine of the C library are finite on the
    arguments the twelve stages and the eight rings of the default
    aspects give them. *)
Definition libm_finite_on_defaults {platform : Platform} : bool :=
  forallb (fun stage =>
             is_finite (libm_sin (Py.nearest_float stage / 12
                                  * SelfClock.math_pi)))
          (map Z.of_nat (seq 1 12))
  && forallb (fun ring =>
                is_finite (libm_cos (Py.nearest_float ring / 8
                                     * SelfClock.math_pi / 2)))
             (map Z.of_nat (seq 1 8)).

(** ** A platform to evaluate the script on *)

Module Sample.

(** Sine and cosine by their Taylor series in nested form, nine terms
    deep, and a decimal parser that accepts nothing: a stand-in for
    the C library, accurate to the three decimals the script keeps on
    the arguments it passes. *)
Fixpoint series (terms : nat) (k : Z) (y : float) : float :=
  match terms with
  | O => 1%float
  | S terms' =>
      (1 - y / of_uint63 (Uint63.of_Z (k * (k + 1)))
             * series terms' (k + 2) y)%float
  end.

Definition sin (x : float) : float := (x * series 9 2 (x * x))%float.

Definition cos (x : float) : float := series 9 1 (x * x)%float.

#[export] Instance platform : Platform := {|
  libm_sin := sin;
  libm_cos := cos;
  parse_float := fun _ => None;
|}.

End Sample.

(** * Properties of the script *)

Import Py SelfClock.
Local Open Scope string_scope.

(** ** Dictionaries *)

Section Dictionaries.

Implicit Types (d : dict) (k : string) (v : value).

Lemma dict_get_set_eq d k v : dict_get (dict_set d k v) k = Some v.
Proof.
  induction d as [|[k' v'] d IH]; simpl.
  - now rewrite String.eqb_refl.
  - destruct (String.eqb k' k) eqn:E; simpl; rewrite E; [reflexivity | exact IH].
Qed.

Lemma dict_get_set_ne d k k' v :
  k <> k' -> dict_get (dict_set d k v) k' = dict_get d k'.
Proof.
  intros Hne. induction d as [|[k0 v0] d IH]; simpl.
  - apply String.eqb_neq in Hne. now rewrite Hne.
  - destruct (String.eqb k0 k) eqn:E; simpl.
    + apply String.eqb_eq in E. subst k0.
      apply String.eqb_neq in Hne. now rewrite Hne.
    + now rewrite IH.
Qed.

Lemma dict_set_same d k v : dict_get d k = Some v -> dict_set d k v = d.
Proof.
  induction d as [|[k' v'] d IH]; simpl; [discriminate|].
  destruct (String.eqb k' k) eqn:E.
  - intros [= ->]. reflexivity.
  - intros H. now rewrite IH.
Qed.

Lemma dict_set_set d k v v' : dict_set (dict_set d k v) k v' = dict_set d k v'.
Proof.
  induction d as [|[k0 v0] d IH]; simpl.
  - now rewrite String.eqb_refl.
  - destruct (String.eqb k0 k) eqn:E; simpl; rewrite E; [reflexivity|].
    now rewrite IH.
Qed.

End Dictionaries.

(** ** The result monad *)

Lemma bind_Ok_inv {A B} (r : result A) (k : A -> result B) (b : B) :
  Py.bind r k = Ok b -> exists a, r = Ok a /\ k a = Ok b.
Proof. destruct r; simpl; [eauto | discriminate]. Qed.

Ltac bind_inv H :=
  let x := fresh "x" in
  let Hx := fresh "Hx" in
  apply bind_Ok_inv in H; destruct H as (x & Hx & H).

(** ** Default aspect generation *)

Lemma enumerate_lookup {A} (l : list A) (start : Z) (i : nat) :
  enumerate start l !! i = (fun x => (start + Z.of_nat i, x)) <$> l !! i.
Proof.
  revert start i. induction l as [|x l IH]; intros start [|i]; simpl;
    try reflexivity.
  - now rewrite Z.add_0_r.
  - rewrite IH. destruct (l !! i); simpl; [|reflexivity].
    do 2 f_equal. lia.
Qed.

Lemma enumerate_length {A} (l : list A) (start : Z) :
  length (enumerate start l) = length l.
Proof. revert start. induction l; intros; simpl; [|rewrite IHl]; reflexivity. Qed.

Lemma default_aspects_lookup (i : nat) :
  default_aspects !! i
  = default_aspect (Z.of_nat i) <$> DEFAULT_ASPECTS !! i.
Proof.
  unfold default_aspects. rewrite list_lookup_fmap, enumerate_lookup.
  destruct (DEFAULT_ASPECTS !! i); reflexivity.
Qed.

Lemma default_aspects_length : length default_aspects = 32%nat.
Proof.
  unfold default_aspects. now rewrite length_map, enumerate_length.
Qed.

(** C5: with no state file, the loader hands the script the default
    state: 32 aspects in the order of the name list, the one at index [i]
    with ring [i // 4 + 1], stage [i % 12 + 1] and activation 0; so every
    default ring lies in 1..8 and every default stage in 1..12. *)
Theorem default_generation (σ : fs) :
  σ !! SELF_CLOCK_FILE = None ->
  load_json SELF_CLOCK_FILE default_self_clock_state σ
    = (σ, Ok (VDict [("aspects", VList (map VDict default_aspects))]))
  /\ length default_aspects = 32%nat
  /\ (forall i : nat, (i < 32)%nat ->
        exists name,
          DEFAULT_ASPECTS !! i = Some name
          /\ default_aspects !! i
             = Some [ ("name", VStr name);
                      ("activation", VInt 0);
                      ("ring", VInt (Z.of_nat i / 4 + 1));
                      ("stage", VInt (Z.of_nat i mod 12 + 1)) ])
  /\ Forall (fun aspect =>
               exists ring stage,
                 dict_get aspect "ring" = Some (VInt ring)
                 /\ dict_get aspect "stage" = Some (VInt stage)
                 /\ 1 <= ring <= 8 /\ 1 <= stage <= 12)
            default_aspects.
Proof.
  intros Hfile. split; [|split; [|split]].
  - unfold load_json. now rewrite Hfile.
  - exact default_aspects_length.
  - intros i Hi.
    destruct (DEFAULT_ASPECTS !! i) as [name|] eqn:Hname.
    + exists name. split; [reflexivity|].
      now rewrite default_aspects_lookup, Hname.
    + apply lookup_ge_None in Hname. simpl in Hname. lia.
  - apply Forall_lookup. intros i aspect Hlook.
    assert (Hi : (i < 32)%nat).
    { rewrite <- default_aspects_length. eapply lookup_lt_Some, Hlook. }
    rewrite default_aspects_lookup in Hlook.
    destruct (DEFAULT_ASPECTS !! i) as [name|]; [|discriminate].
    injection Hlook as <-.
    exists (Z.of_nat i / 4 + 1), (Z.of_nat i mod 12 + 1).
    split; [reflexivity|]. split; [reflexivity|].
    split; Z.div_mod_to_equations; lia.
Qed.

Lemma default_generation_witness :
  (∅ : fs) !! SELF_CLOCK_FILE = None
  /\ exists name,
       DEFAULT_ASPECTS !! 31%nat = Some name
       /\ default_aspects !! 31%nat
          = Some [ ("name", VStr name); ("activation", VInt 0);
                   ("ring", VInt 8); ("stage", VInt 8) ].
Proof.
  split; [reflexivity|].
  exact (proj1 (proj2 (proj2 (default_generation ∅ eq_refl))) 31%nat
               ltac:(lia)).
Defined.

(** ** The Harmonizer: what [update_aspect] writes and what it leaves *)

Section Harmonizer.

Context {platform : Platform}.

(** A successful update assigns two keys, in this order, and nothing
    else. *)
Lemma update_aspect_shape (aspect : dict) (ci cf : float) (aspect' : dict) :
  update_aspect aspect ci cf = Ok aspect' ->
  exists (activation : float) (fv : dict),
    field_vector_keys fv
    /\ aspect' = dict_set (dict_set aspect "activation" (VFloat activation))
                          "field_vector" (VDict fv).
Proof.
  unfold update_aspect. intros H.
  repeat bind_inv H.
  match goal with
  | Hfv : field_vector _ _ _ _ = Ok ?fv |- _ =>
      unfold field_vector in Hfv; repeat bind_inv Hfv;
      assert (Hkeys : field_vector_keys fv)
        by (inversion Hfv; subst; repeat econstructor)
  end.
  inversion H; subst. eauto.
Qed.

(** C10: a successful update leaves every key other than [activation]
    and [field_vector] as it was, so [name], [ring] and [stage] survive;
    the updated record is the old one with exactly those two keys
    assigned. *)
Theorem update_aspect_frame (aspect : dict) (ci cf : float) (aspect' : dict) :
  update_aspect aspect ci cf = Ok aspect' ->
  (forall k : string,
      k <> "activation" -> k <> "field_vector" ->
      dict_get aspect' k = dict_get aspect k)
  /\ dict_get aspect' "name" = dict_get aspect "name"
  /\ dict_get aspect' "ring" = dict_get aspect "ring"
  /\ dict_get aspect' "stage" = dict_get aspect "stage"
  /\ exists (activation : float) (fv : dict),
       aspect' = dict_set (dict_set aspect "activation" (VFloat activation))
                          "field_vector" (VDict fv).
Proof.
  intros H. destruct (update_aspect_shape _ _ _ _ H) as (act & fv & _ & ->).
  assert (Hframe : forall k : string,
             k <> "activation" -> k <> "field_vector" ->
             dict_get (dict_set (dict_set aspect "activation" (VFloat act))
                                "field_vector" (VDict fv)) k
             = dict_get aspect k).
  { intros k Ha Hf. rewrite !dict_get_set_ne; auto. }
  split; [exact Hframe|].
  repeat split; try (apply Hframe; discriminate).
  eauto.
Qed.

End Harmonizer.

Lemma update_aspect_frame_witness :
  exists aspect' : dict,
    update_aspect (platform := Sample.platform)
                  (default_aspect 0 "Awareness") 0.96 0.94 = Ok aspect'
    /\ dict_get aspect' "name" = Some (VStr "Awareness")
    /\ dict_get aspect' "ring" = Some (VInt 1)
    /\ dict_get aspect' "stage" = Some (VInt 1).
Proof.
  eexists. split; [vm_compute; reflexivity|].
  pose proof (update_aspect_frame (platform := Sample.platform)
                (default_aspect 0 "Awareness") 0.96 0.94 _
                ltac:(vm_compute; reflexivity)) as (_ & Hn & Hr & Hs & _).
  exact (conj Hn (conj Hr Hs)).
Defined.

(** ** The Loader *)


(** So does it on a file whose bytes are not UTF-8 text: the decoding
    error is not the one the handler catches. *)
Lemma load_json_raises_on_undecodable :
  load_json LOG_FILE (VList []) {[ LOG_FILE := File Undecodable ]}
  = ({[ LOG_FILE := File Undecodable ]}, Raise UnicodeDecodeError).
Proof. reflexivity. Qed.


(** A load leaves the file system as it found it. *)
Lemma load_json_state (path : string) (fallback : value) (σ : fs) :
  load_json path fallback σ = (σ, snd (load_json path fallback σ)).
Proof.
  unfold load_json. now destruct (σ !! path) as [[|[| |v]]|].
Qed.

(** ** The Aggregator on an empty sequence *)

Section EmptyAspects.

Context {platform : Platform}.

(** C7: with an empty aspect sequence the mean divides zero by zero: the
    run stops with [ZeroDivisionError] before anything is written, and no
    SCI is produced. *)
Theorem empty_aspects_divide_by_zero
    (TIMESTAMP : string) (σ : fs) (codex current : value) (ci cf : float) :
  snd (load_json CODEX_FILE default_codex σ) = Ok codex ->
  snd (load_json SELF_CLOCK_FILE default_self_clock_state σ) = Ok current ->
  (v <- value_get codex "coherence_index_CI" (VFloat 0.96);;
   py_float v)%py = Ok ci ->
  (v <- value_get codex "compassion_constraint_Cf" (VFloat 0.94);;
   py_float v)%py = Ok cf ->
  (aspects <- subscript current "aspects";; iterate aspects)%py = Ok [] ->
  compute_SCI [] = Raise ZeroDivisionError
  /\ script TIMESTAMP σ = (σ, Raise ZeroDivisionError).
Proof.
  intros Hcodex Hstate Hci Hcf Haspects.
  split; [reflexivity|].
  unfold script, bindM, lift.
  rewrite (load_json_state CODEX_FILE), Hcodex.
  rewrite (load_json_state SELF_CLOCK_FILE), Hstate.
  rewrite Hci, Hcf.
  destruct (subscript current "aspects") as [aspects|]; [|discriminate].
  simpl in Haspects |- *. rewrite Haspects. reflexivity.
Qed.

End EmptyAspects.

Lemma empty_aspects_divide_by_zero_witness :
  let σ : fs :=
    {[ SELF_CLOCK_FILE := File (Document (VDict [("aspects", VList [])])) ]} in
  script (platform := Sample.platform) "2026-01-01T00:00:00Z" σ
  = (σ, Raise ZeroDivisionError).
Proof.
  exact (proj2 (empty_aspects_divide_by_zero (platform := Sample.platform)
                  "2026-01-01T00:00:00Z"
                  {[ SELF_CLOCK_FILE :=
                       File (Document (VDict [("aspects", VList [])])) ]}
                  default_codex (VDict [("aspects", VList [])])
                  0.96 0.94
                  eq_refl eq_refl eq_refl eq_refl eq_refl)).
Defined.

(** ** Integer fields against the float formulas *)

Lemma in_int_range (z : Z) : -64 <= z <= 64 -> In z int_range.
Proof.
  intros H. apply in_map_iff. exists (Z.to_nat (z + 64)).
  split; [lia|]. apply in_seq. lia.
Qed.

Lemma int_range_forall (P : Z -> bool) :
  forallb P int_range = true -> forall z, -64 <= z <= 64 -> P z = true.
Proof.
  intros H z Hz. rewrite forallb_forall in H. apply H, in_int_range, Hz.
Qed.

Lemma float_result_eqb_eq (a b : result float) :
  float_result_eqb a b = true -> a = b.
Proof.
  destruct a as [x|], b as [y|]; simpl; try discriminate.
  intros H. apply FloatAxioms.Leibniz.eqb_spec in H. now subst.
Qed.

(** Closes a goal [lhs z = rhs z] on results, for [z] of magnitude at
    most 64, by evaluating both sides on the whole range. *)
Ltac by_evaluation z Hz :=
  apply float_result_eqb_eq;
  pattern z;
  match goal with
  | |- (fun x => @?P x = true) _ =>
      apply (int_range_forall P); [vm_compute; reflexivity | exact Hz]
  end.

Lemma float_of_int_moderate (z : Z) :
  -64 <= z <= 64 -> float_of_int z = Ok (nearest_float z).
Proof. intros Hz. by_evaluation z Hz. Qed.

Lemma float_div_phi (x : float) : float_div x phi = Ok (x / Spec.phi)%float.
Proof. reflexivity. Qed.

Lemma truediv_8 (x : num) :
  moderate x -> num_truediv x (NInt 8) = Ok (float_value x / 8)%float.
Proof.
  destruct x as [z|f]; simpl; intros Hz; [by_evaluation z Hz | reflexivity].
Qed.

Lemma truediv_12 (x : num) :
  moderate x -> num_truediv x (NInt 12) = Ok (float_value x / 12)%float.
Proof.
  destruct x as [z|f]; simpl; intros Hz; [by_evaluation z Hz | reflexivity].
Qed.

Lemma normalize_1_8 (x : num) :
  moderate x ->
  normalize x (NInt 1) (NInt 8) = Ok (Spec.normalize (float_value x) 1 8).
Proof.
  destruct x as [z|f]; simpl; intros Hz; [by_evaluation z Hz | reflexivity].
Qed.

Lemma normalize_1_12 (x : num) :
  moderate x ->
  normalize x (NInt 1) (NInt 12) = Ok (Spec.normalize (float_value x) 1 12).
Proof.
  destruct x as [z|f]; simpl; intros Hz; [by_evaluation z Hz | reflexivity].
Qed.

Lemma sum_over_20 (x y : num) :
  moderate x -> moderate y ->
  (rs <- num_add x y;; num_truediv rs (NInt (8 + 12)))%py
  = Ok ((float_value x + float_value y) / 20)%float.
Proof.
  destruct x as [a|f], y as [b|g]; simpl; intros Ha Hb.
  - apply float_result_eqb_eq.
    revert b Hb. pattern a.
    match goal with
    | |- (fun x => forall b, _ -> @?P x b = true) _ =>
        enough (H : forallb (fun x => forallb (P x) int_range) int_range = true)
    end.
    + intros b Hb.
      pose proof (int_range_forall _ H a Ha) as H'. cbv beta in H'.
      exact (int_range_forall _ H' b Hb).
    + vm_compute. reflexivity.
  - unfold num_add, num_arith. simpl.
    rewrite (float_of_int_moderate a Ha). reflexivity.
  - unfold num_add, num_arith. simpl.
    rewrite (float_of_int_moderate b Hb). reflexivity.
  - reflexivity.
Qed.

(** ** The Harmonizer against the formula block *)

Section Formula.

Context {platform : Platform}.

Lemma math_1_Ok (func : float -> float) (x y : float) :
  math_1 func x = Ok y -> y = func x.
Proof.
  unfold math_1.
  destruct (is_nan (func x) && negb (is_nan x)); [discriminate|].
  destruct (is_infinity (func x) && is_finite x); [discriminate|].
  now intros [= <-].
Qed.

Lemma field_vector_formula (r s : num) (ci cf : float) :
  moderate r -> moderate s ->
  field_vector r s ci cf
  = (_ <- math_sin (float_value s / 12 * math_pi);;
     _ <- math_cos (float_value r / 8 * math_pi / 2);;
     Ok (Spec.field_vector ci cf (float_value r) (float_value s)))%py.
Proof.
  intros Hr Hs. unfold field_vector.
  rewrite (normalize_1_8 r Hr), (normalize_1_12 s Hs). cbn [bind].
  rewrite !float_div_phi. cbn [bind].
  rewrite (truediv_12 s Hs). cbn [bind].
  destruct (math_sin _) as [n|e] eqn:Hsin; cbn [bind]; [|reflexivity].
  rewrite (truediv_8 r Hr). cbn [bind].
  destruct (math_cos _) as [t|e] eqn:Hcos; cbn [bind]; [|reflexivity].
  destruct (bind_Ok_inv _ _ _ (sum_over_20 r s Hr Hs)) as (rs & Hadd & Hdiv).
  rewrite Hadd. cbn [bind]. rewrite Hdiv. cbn [bind].
  apply math_1_Ok in Hsin, Hcos. subst n t. reflexivity.
Qed.


End Formula.

Lemma digits2_pos_iter_xO (p n : positive) :
  digits2_pos (Pos.iter xO p n) = (digits2_pos p + n)%positive.
Proof.
  induction n using Pos.peano_ind.
  - simpl. lia.
  - rewrite Pos.iter_succ. simpl. rewrite IHn. lia.
Qed.

Lemma digits2_pos_lower (p : positive) :
  2 ^ (Zpos (digits2_pos p) - 1) <= Zpos p.
Proof.
  induction p as [p IH|p IH|]; simpl digits2_pos.
  - rewrite Pos2Z.inj_succ. replace (Z.succ (Zpos (digits2_pos p)) - 1) with (Z.succ (Zpos (digits2_pos p) - 1)) by lia.
    rewrite Z.pow_succ_r by lia. lia.
  - rewrite Pos2Z.inj_succ. replace (Z.succ (Zpos (digits2_pos p)) - 1) with (Z.succ (Zpos (digits2_pos p) - 1)) by lia.
    rewrite Z.pow_succ_r by lia. lia.
  - simpl. lia.
Qed.

Lemma digits2_pos_small (p : positive) :
  Zpos p < 2 ^ 53 -> Zpos (digits2_pos p) <= 53.
Proof.
  intros H. pose proof (digits2_pos_lower p) as L.
  destruct (Z_le_gt_dec (Zpos (digits2_pos p)) 53) as [|G]; [assumption|].
  assert (2 ^ 53 <= 2 ^ (Zpos (digits2_pos p) - 1)) by (apply Z.pow_le_mono_r; lia).
  lia.
Qed.

Lemma binary_round_aux_exact (s : bool) (m : positive) (e : Z) :
  Zpos (digits2_pos m) = 53 -> -1074 <= e <= 971 ->
  binary_round_aux prec emax s (Zpos m) e loc_Exact = S754_finite s m e.
Proof.
  intros Hd He.
  unfold binary_round_aux, shr_fexp, Zdigits2.
  rewrite Hd.
  assert (Hf : fexp prec emax (53 + e) = e).
  { unfold fexp, SpecFloat.emin, prec, emax. lia. }
  rewrite Hf, Z.sub_diag. simpl shr. cbv iota beta.
  unfold round_nearest_even, loc_of_shr_record, shr_record_of_loc, shr_m.
  unfold Zdigits2. rewrite Hd, Hf, Z.sub_diag. simpl.
  match goal with
  | |- context [(e <=? ?b)%Z] =>
      replace (e <=? b)%Z with true
        by (symmetry; apply Z.leb_le; unfold emax, prec; lia)
  end.
  reflexivity.
Qed.

Lemma binary_normalize_small (z : Z) :
  0 < z < 2 ^ 53 ->
  exists m e, binary_normalize prec emax z 0 false = S754_finite false m e
              /\ Zpos (digits2_pos m) = 53 /\ -1074 <= e <= 971.
Proof.
  intros [Hpos Hlt]. destruct z as [|p|p]; try lia.
  pose proof (digits2_pos_small p Hlt) as Hd.
  unfold binary_normalize, binary_round.
  assert (Hf : fexp prec emax (Zpos (digits2_pos p) + 0) = Zpos (digits2_pos p) - 53).
  { unfold fexp, SpecFloat.emin, prec, emax. lia. }
  rewrite Hf. unfold shl_align.
  destruct (Zpos (digits2_pos p) - 53 - 0) as [|q|q] eqn:E; try lia.
  - exists p, 0. split; [|lia]. apply binary_round_aux_exact; lia.
  - exists (Pos.iter xO p q), (Zpos (digits2_pos p) - 53).
    assert (Hd' : Zpos (digits2_pos (Pos.iter xO p q)) = 53).
    { rewrite digits2_pos_iter_xO. lia. }
    split; [|split; [exact Hd'|lia]].
    apply binary_round_aux_exact; [exact Hd'|lia].
Qed.

(** A positive integer below [2^53] converts without rounding, to a
    float that is not zero. *)
Lemma float_of_int_exact (z : Z) :
  0 < z < 2 ^ 53 ->
  float_of_int z = Ok (nearest_float z)
  /\ PrimFloat.eqb (nearest_float z) 0 = false.
Proof.
  intros Hz.
  destruct (binary_normalize_small z Hz) as (m & e & Hn & Hd & He).
  unfold float_of_int, nearest_float. rewrite Hn. split; [reflexivity|].
  rewrite FloatAxioms.eqb_spec, FloatAxioms.Prim2SF_SF2Prim.
  - reflexivity.
  - unfold valid_binary, bounded, canonical_mantissa.
    rewrite Hd.
    replace (fexp prec emax (53 + e)) with e
      by (unfold fexp, SpecFloat.emin, prec, emax; lia).
    rewrite Z.eqb_refl. apply Z.leb_le. unfold emax, prec. lia.
Qed.

(** ** The Aggregator *)

Lemma mapM_Forall2 {A B} (f : A -> result B) (l : list A) (l' : list B) :
  mapM f l = Ok l' -> Forall2 (fun x y => f x = Ok y) l l'.
Proof.
  revert l'. induction l as [|x l IH]; simpl; intros l' H.
  - injection H as <-. constructor.
  - bind_inv H. bind_inv H. injection H as <-. constructor; auto.
Qed.

Lemma Forall_exists_Forall2 {A B} (R : A -> B -> Prop) (l : list A) :
  Forall (fun a => exists b, R a b) l -> exists k, Forall2 R l k.
Proof.
  induction 1 as [|a l [b Hb] _ [k Hk]].
  - exists []. constructor.
  - exists (b :: k). now constructor.
Qed.

Lemma sum_from_floats (term : dict -> result num) (l : list dict)
    (xs : list float) (acc : float) :
  Forall2 (fun a x => term a = Ok (NFloat x)) l xs ->
  sum_from term (NFloat acc) l = Ok (NFloat (fold_left PrimFloat.add xs acc)).
Proof.
  intros H. revert acc. induction H as [|a x l xs Ha _ IH]; intros acc; simpl.
  - reflexivity.
  - rewrite Ha. cbn [bind]. apply IH.
Qed.

(** [sum] starts from the integer 0, which the first float term turns
    into the float 0. *)
Lemma sum_from_zero (term : dict -> result num) (l : list dict)
    (xs : list float) :
  Forall2 (fun a x => term a = Ok (NFloat x)) l xs ->
  l <> [] ->
  sum_from term (NInt 0) l = Ok (NFloat (Spec.sum xs)).
Proof.
  intros H Hne. destruct H as [|a x l xs Ha H]; [congruence|].
  simpl. rewrite Ha. cbn [bind].
  change (num_add (NInt 0) (NFloat x)) with (Ok (NFloat (0 + x))).
  cbn [bind]. apply (sum_from_floats term l xs _ H).
Qed.

Section Aggregator.

Context {platform : Platform}.

(** What the Harmonizer leaves in a record: a float activation and a
    field vector with float components [A] and [N]. *)
Lemma update_aspect_fields (d : dict) (ci cf : float) (d' : dict) :
  update_aspect d ci cf = Ok d' ->
  exists (x : float) (an : float * float),
    activation_of d' = Ok (NFloat x)
    /\ energy_matter_of d' = Ok (NFloat (fst an + snd an))
    /\ dict_get d' "activation" = Some (VFloat x)
    /\ exists fv, dict_get d' "field_vector" = Some (VDict fv)
                  /\ dict_get fv "A" = Some (VFloat (fst an))
                  /\ dict_get fv "N" = Some (VFloat (snd an)).
Proof.
  intros H.
  destruct (update_aspect_shape _ _ _ _ H)
    as (x & fv & (g & r & p & a & n & t & cx & id & ->) & ->).
  exists x, (a, n).
  assert (Hact : dict_get
            (dict_set (dict_set d "activation" (VFloat x)) "field_vector"
               (VDict [("G", VFloat g); ("R", VFloat r); ("P", VFloat p);
                       ("A", VFloat a); ("N", VFloat n); ("T", VFloat t);
                       ("Cx", VFloat cx); ("Id", VFloat id)]))
            "activation" = Some (VFloat x)).
  { rewrite dict_get_set_ne by discriminate. apply dict_get_set_eq. }
  unfold activation_of, energy_matter_of, getitem.
  rewrite Hact, dict_get_set_eq. cbn.
  repeat split; eauto.
Qed.

(** C3: over the aspects the Harmonizer produced, when there is at least
    one, SCI is the mean of the [activation] fields rounded to three
    decimals and the energy-matter sum is the sum of [A + N] over the
    field vectors rounded to three decimals. *)
Theorem aggregator_formula
    (aspects : list value) (ci cf : float) (UPDATED : list dict) :
  mapM (fun aspect => d <- dict_of aspect;; update_aspect d ci cf)%py aspects
    = Ok UPDATED ->
  UPDATED <> [] ->
  Z.of_nat (length UPDATED) < 2 ^ 53 ->
  exists (activations : list float) (fields : list (float * float)),
    Forall2 (fun a x => dict_get a "activation" = Some (VFloat x))
            UPDATED activations
    /\ Forall2 (fun a an =>
                  exists fv, dict_get a "field_vector" = Some (VDict fv)
                             /\ dict_get fv "A" = Some (VFloat (fst an))
                             /\ dict_get fv "N" = Some (VFloat (snd an)))
               UPDATED fields
    /\ compute_SCI UPDATED = Ok (Spec.SCI activations)
    /\ compute_ENERGY_MATTER_SUM UPDATED
       = Ok (NFloat (Spec.energy_matter_sum fields)).
Proof.
  intros Hmap Hne Hlen.
  assert (Hall : Forall (fun d' => exists t : float * (float * float),
                   activation_of d' = Ok (NFloat (fst t))
                   /\ energy_matter_of d'
                      = Ok (NFloat (fst (snd t) + snd (snd t)))
                   /\ dict_get d' "activation" = Some (VFloat (fst t))
                   /\ exists fv, dict_get d' "field_vector" = Some (VDict fv)
                        /\ dict_get fv "A" = Some (VFloat (fst (snd t)))
                        /\ dict_get fv "N" = Some (VFloat (snd (snd t))))
                UPDATED).
  { clear Hne Hlen. apply mapM_Forall2 in Hmap.
    induction Hmap as [|a d' l l' Ha _ IH]; constructor; auto.
    bind_inv Ha.
    destruct (update_aspect_fields _ _ _ _ Ha)
      as (act & an & H1 & H2 & H3 & H4).
    exists (act, an). simpl. repeat split; assumption. }
  apply Forall_exists_Forall2 in Hall. destruct Hall as [ts Hts].
  exists (map fst ts), (map (fun t => snd t) ts).
  assert (Hlen' : length (map fst ts) = length UPDATED).
  { rewrite length_map. symmetry. eapply Forall2_length, Hts. }
  split; [|split; [|split]].
  - apply Forall2_fmap_r. eapply Forall2_impl; [exact Hts|].
    simpl. intros a t (_ & _ & H & _). exact H.
  - apply Forall2_fmap_r. eapply Forall2_impl; [exact Hts|].
    simpl. intros a t (_ & _ & _ & H). exact H.
  - unfold compute_SCI.
    rewrite (sum_from_zero activation_of UPDATED (map fst ts)); [|
      apply Forall2_fmap_r; eapply Forall2_impl; [exact Hts|];
      simpl; intros a t (H & _); exact H | exact Hne].
    cbn [bind]. unfold num_truediv, to_float, len. cbn [bind].
    destruct (float_of_int_exact (Z.of_nat (length UPDATED))) as [Hf Hz].
    { split; [|exact Hlen]. destruct UPDATED; [congruence|simpl; lia]. }
    rewrite Hf. cbn [bind]. unfold float_div. rewrite Hz.
    unfold Spec.SCI, Spec.mean. now rewrite Hlen'.
  - unfold compute_ENERGY_MATTER_SUM.
    rewrite (sum_from_zero energy_matter_of UPDATED
               (map (fun an => (fst an + snd an)%float)
                    (map (fun t => snd t) ts))); [reflexivity| |exact Hne].
    rewrite map_map. apply Forall2_fmap_r. eapply Forall2_impl; [exact Hts|].
    simpl. intros a t (_ & H & _). exact H.
Qed.

End Aggregator.

Lemma aggregator_formula_witness :
  exists UPDATED : list dict,
    mapM (fun aspect =>
            d <- dict_of aspect;;
            update_aspect (platform := Sample.platform) d 0.96 0.94)%py
         (map VDict default_aspects) = Ok UPDATED
    /\ compute_SCI UPDATED = Ok 28.692%float
    /\ compute_ENERGY_MATTER_SUM UPDATED = Ok (NFloat 39.914).
Proof.
  eexists. split; [vm_compute; reflexivity|].
  match goal with
  | |- compute_SCI ?U = _ /\ _ =>
      destruct (aggregator_formula (platform := Sample.platform)
                  (map VDict default_aspects) 0.96 0.94 U
                  ltac:(vm_compute; reflexivity)
                  ltac:(discriminate)
                  ltac:(vm_compute; reflexivity))
        as (acts & fields & _ & _ & _ & _)
  end.
  split; vm_compute; reflexivity.
Defined.

(** ** One run of the script *)

Lemma bindM_Ok_inv {A B} (m : M A) (k : A -> M B) (σ σ' : fs) (b : B) :
  bindM m k σ = (σ', Ok b) ->
  exists σ1 a, m σ = (σ1, Ok a) /\ k a σ1 = (σ', Ok b).
Proof.
  unfold bindM. destruct (m σ) as [σ1 [a|e]]; [eauto | discriminate].
Qed.

Lemma lift_Ok_inv {A} (r : result A) (σ σ' : fs) (a : A) :
  lift r σ = (σ', Ok a) -> σ' = σ /\ r = Ok a.
Proof. unfold lift. now intros [= -> ->]. Qed.

Lemma load_json_Ok_inv (path : string) (fallback : value) (σ σ' : fs)
    (v : value) :
  load_json path fallback σ = (σ', Ok v) ->
  σ' = σ /\ snd (load_json path fallback σ) = Ok v.
Proof.
  intros H. rewrite load_json_state in H. now injection H as <- ->.
Qed.

Lemma load_json_ext (path : string) (fallback : value) (σa σb : fs) :
  σa !! path = σb !! path ->
  snd (load_json path fallback σa) = snd (load_json path fallback σb).
Proof.
  intros E. unfold load_json. rewrite E.
  now destruct (σb !! path) as [[|[| |?]]|].
Qed.

Lemma write_json_Ok_inv (path : string) (v : value) (σ σ' : fs) (u : unit) :
  write_json path v σ = (σ', Ok u) ->
  σ !! path <> Some Dir /\ σ' = <[path := File (Document v)]> σ.
Proof.
  unfold write_json.
  destruct (σ !! path) as [[|c]|]; intros [= <-]; split; congruence.
Qed.

Lemma mkdir_Ok_inv (path : string) (σ σ' : fs) (u : unit) :
  mkdir path σ = (σ', Ok u) ->
  σ' !! path = Some Dir /\ forall p, p <> path -> σ' !! p = σ !! p.
Proof.
  unfold mkdir. destruct (σ !! path) as [[|c]|] eqn:E; intros [= <-].
  - auto.
  - split; [apply lookup_insert_eq|]. intros p Hp.
    now apply lookup_insert_ne.
Qed.

Ltac bindM_inv H :=
  let σ1 := fresh "σ" in
  let a := fresh "a" in
  let Ha := fresh "Hrun" in
  apply bindM_Ok_inv in H; destruct H as (σ1 & a & Ha & H).

Section OneRun.

Context {platform : Platform}.

(** Everything a successful run did, step by step. *)
Lemma script_Ok_inv (TIMESTAMP : string) (σ σ' : fs) (g : globals) :
  script TIMESTAMP σ = (σ', Ok g) ->
  exists (σ1 : fs) (signature old : value),
    snd (load_json CODEX_FILE default_codex σ) = Ok (codex_data g)
    /\ snd (load_json SELF_CLOCK_FILE default_self_clock_state σ)
       = Ok (current_data g)
    /\ (v <- value_get (codex_data g) "coherence_index_CI" (VFloat 0.96);;
        py_float v)%py = Ok (CI g)
    /\ (v <- value_get (codex_data g) "compassion_constraint_Cf" (VFloat 0.94);;
        py_float v)%py = Ok (CF g)
    /\ (aspects <- subscript (current_data g) "aspects";;
        aspects <- iterate aspects;;
        mapM (fun aspect => d <- dict_of aspect;;
                            update_aspect d (CI g) (CF g)) aspects)%py
       = Ok (UPDATED_ASPECTS g)
    /\ compute_SCI (UPDATED_ASPECTS g) = Ok (SCI g)
    /\ compute_ENERGY_MATTER_SUM (UPDATED_ASPECTS g) = Ok (ENERGY_MATTER_SUM g)
    /\ mkdir DATA_DIR σ = (σ1, Ok tt)
    /\ value_get (codex_data g) "codex_sync_signature" (VStr "N/A")
       = Ok signature
    /\ self_clock_state g
       = state_payload TIMESTAMP (SCI g) (ENERGY_MATTER_SUM g) signature
                       (UPDATED_ASPECTS g)
    /\ σ1 !! SELF_CLOCK_FILE <> Some Dir
    /\ snd (load_json LOG_FILE (VList []) σ) = Ok old
    /\ append old (log_entry TIMESTAMP (SCI g) (ENERGY_MATTER_SUM g))
       = Ok (log_entries g)
    /\ σ !! LOG_FILE <> Some Dir
    /\ σ' = <[LOG_FILE := File (Document (VList (log_entries g)))]>
              (<[SELF_CLOCK_FILE :=
                   File (Document (VDict (self_clock_state g)))]> σ1).
Proof.
  unfold script. intros H.
  bindM_inv H. apply load_json_Ok_inv in Hrun as [-> Hcodex].
  bindM_inv H. apply load_json_Ok_inv in Hrun as [-> Hstate].
  bindM_inv H. apply lift_Ok_inv in Hrun as [-> Hci].
  bindM_inv H. apply lift_Ok_inv in Hrun as [-> Hcf].
  bindM_inv H. apply lift_Ok_inv in Hrun as [-> Hasp].
  bindM_inv H. apply lift_Ok_inv in Hrun as [-> Hsci].
  bindM_inv H. apply lift_Ok_inv in Hrun as [-> Hems].
  bindM_inv H. rename Hrun into Hmkdir.
  bindM_inv H. apply lift_Ok_inv in Hrun as [-> Hsig].
  bindM_inv H. apply write_json_Ok_inv in Hrun as [Hnd1 ->].
  bindM_inv H. apply load_json_Ok_inv in Hrun as [-> Hlog].
  bindM_inv H. apply lift_Ok_inv in Hrun as [-> Happ].
  bindM_inv H. apply write_json_Ok_inv in Hrun as [Hnd2 ->].
  unfold ret in H. injection H as <- <-. simpl.
  destruct (mkdir_Ok_inv _ _ _ _ Hmkdir) as [_ Hother].
  match type of Hlog with
  | snd (load_json _ _ ?σx) = _ =>
      rewrite (load_json_ext LOG_FILE (VList []) σx σ) in Hlog
        by (rewrite lookup_insert_ne by discriminate;
            apply Hother; discriminate)
  end.
  rewrite lookup_insert_ne, Hother in Hnd2 by discriminate.
  match goal with
  | Hm : mkdir _ _ = (?s, Ok ?u),
    Hs : value_get _ "codex_sync_signature" _ = Ok ?sg,
    Hl : snd (load_json LOG_FILE _ _) = Ok ?o |- _ =>
      destruct u; exists s, sg, o
  end.
  repeat split; solve [assumption | reflexivity].
Qed.

End OneRun.

(** ** The log *)

Local Open Scope list_scope.

Section Log.

Context {platform : Platform}.

(** A successful run rewrites the log file with the entries it found
    followed by its own. *)
Lemma script_log (TIMESTAMP : string) (σ σ' : fs) (g : globals) :
  script TIMESTAMP σ = (σ', Ok g) ->
  exists old : list value,
    log_of σ = Some old
    /\ log_entries g
       = old ++ [log_entry TIMESTAMP (SCI g) (ENERGY_MATTER_SUM g)]
    /\ σ' !! LOG_FILE = Some (File (Document (VList (log_entries g)))).
Proof.
  intros H. apply script_Ok_inv in H.
  destruct H as (σ1 & signature & old & _ & _ & _ & _ & _ & _ & _ & _ & _ & _
                 & _ & Hload & Happ & _ & ->).
  destruct old as [| | | | |l|]; try discriminate.
  injection Happ as Happ. exists l. split; [|split].
  - unfold log_of. unfold load_json in Hload.
    destruct (σ !! LOG_FILE) as [[|[| |v]]|]; simpl in Hload;
      try discriminate; now injection Hload as ->.
  - now symmetry.
  - apply lookup_insert_eq.
Qed.

(** C2, amended: every run appends exactly one entry
    [{timestamp, SCI, ΣE}] to the end of the log and keeps the entries
    that were there; after N runs in succession the log holds the prior
    entries followed by the N new ones in run order, and the [SCI] field
    of each is the SCI that run computed. *)
Theorem log_grows_by_one_entry_per_run
    (timestamps : list string) (σ σ' : fs) (gs : list globals)
    (old : list value) :
  log_of σ = Some old ->
  run_all timestamps σ = (σ', Ok gs) ->
  length gs = length timestamps
  /\ log_of σ'
     = Some (old ++ zip_with (fun t g =>
                                VDict [ ("timestamp", VStr t);
                                        ("SCI", VFloat (SCI g));
                                        ("ΣE", of_num (ENERGY_MATTER_SUM g)) ])
                             timestamps gs)
  /\ (timestamps <> [] ->
      exists entries,
        σ' !! LOG_FILE = Some (File (Document (VList entries)))
        /\ log_of σ' = Some entries
        /\ length entries = (length old + length timestamps)%nat)
  /\ Forall (fun g => compute_SCI (UPDATED_ASPECTS g) = Ok (SCI g)) gs.
Proof.
  revert σ σ' gs old.
  induction timestamps as [|t ts IH]; intros σ σ' gs old Hold Hrun.
  - simpl in Hrun. unfold ret in Hrun. injection Hrun as <- <-.
    simpl. rewrite app_nil_r. repeat split; auto. congruence.
  - simpl in Hrun. bindM_inv Hrun. rename Hrun0 into Hscript.
    bindM_inv Hrun. unfold ret in Hrun. injection Hrun as <- <-.
    destruct (script_log _ _ _ _ Hscript) as (old' & Hold' & Hentries & Hfile).
    rewrite Hold in Hold'. injection Hold' as <-.
    assert (Hlog1 : log_of σ0 = Some (log_entries a)).
    { unfold log_of. now rewrite Hfile. }
    destruct (IH _ _ _ _ Hlog1 Hrun0) as (Hlen & Hlog & Hfile' & Hsci).
    assert (Hfinal : log_of σ1 = Some (old ++ zip_with
              (fun t g => VDict [ ("timestamp", VStr t);
                                  ("SCI", VFloat (SCI g));
                                  ("ΣE", of_num (ENERGY_MATTER_SUM g)) ])
              (t :: ts) (a :: a0))).
    { rewrite Hlog, Hentries. simpl. now rewrite <- app_assoc. }
    split; [simpl; congruence|]. split; [exact Hfinal|]. split.
    + intros _. destruct ts as [|t' ts'].
      * simpl in Hrun0. unfold ret in Hrun0. injection Hrun0 as <- <-.
        exists (log_entries a). repeat split; auto.
        rewrite Hentries, length_app. simpl. lia.
      * destruct Hfile' as (entries & Hf & Hl & Hn); [discriminate|].
        exists entries. repeat split; auto.
        rewrite Hn, Hentries, length_app. simpl. lia.
    + constructor; [|exact Hsci].
      apply script_Ok_inv in Hscript.
      destruct Hscript as (? & ? & ? & _ & _ & _ & _ & _ & H & _). exact H.
Qed.

End Log.

(** The entry a run appends has the keys [timestamp], [SCI] and [ΣE]; no
    key is named [energy_matter_sum]. *)
Lemma log_entry_has_no_energy_matter_sum_key :
  match snd (script (platform := Sample.platform) "2026-01-01T00:00:00Z" ∅)
  with
  | Ok g =>
      exists entry : dict,
        log_entries g = [VDict entry]
        /\ map fst entry = ["timestamp"; "SCI"; "ΣE"]
        /\ dict_get entry "energy_matter_sum" = None
  | Raise _ => False
  end.
Proof. vm_compute. eexists. repeat split. Qed.

Lemma log_grows_by_one_entry_per_run_witness :
  log_of ∅ = Some []
  /\ match run_all (platform := Sample.platform)
                   ["2026-01-01T00:00:00Z"; "2026-01-02T00:00:00Z"] ∅
     with
     | (σ', Ok gs) =>
         exists entries,
           σ' !! LOG_FILE = Some (File (Document (VList entries)))
           /\ log_of σ' = Some entries
           /\ length entries = 2%nat
     | (_, Raise _) => False
     end.
Proof.
  split; [reflexivity|].
  destruct (run_all _ _) as [σ' [gs|e]] eqn:E.
  - refine (proj1 (proj2 (proj2
              (log_grows_by_one_entry_per_run (platform := Sample.platform)
                 _ ∅ σ' gs [] eq_refl E))) _).
    discriminate.
  - apply (f_equal snd) in E. vm_compute in E. discriminate.
Defined.

(** ** The codex defaults *)

Section Codex.

Context {platform : Platform}.

(** C6: with no codex file the loader hands back the built-in codex, so
    the run uses CI = 0.96 and CF = 0.94, the signature lookup falls to
    its default ["N/A"], and the state file the run writes has
    [codex_reference_signature] equal to ["N/A"]. *)
Theorem missing_codex_defaults
    (TIMESTAMP : string) (σ σ' : fs) (g : globals) :
  σ !! CODEX_FILE = None ->
  script TIMESTAMP σ = (σ', Ok g) ->
  codex_data g = default_codex
  /\ CI g = 0.96%float
  /\ CF g = 0.94%float
  /\ value_get (codex_data g) "codex_sync_signature" (VStr "N/A")
     = Ok (VStr "N/A")
  /\ σ' !! SELF_CLOCK_FILE
     = Some (File (Document (VDict (self_clock_state g))))
  /\ dict_get (self_clock_state g) "codex_reference_signature"
     = Some (VStr "N/A").
Proof.
  intros Hmissing Hrun. apply script_Ok_inv in Hrun.
  destruct Hrun as (σ1 & signature & old & Hcodex & _ & Hci & Hcf & _ & _ & _
                    & _ & Hsig & Hstate & _ & _ & _ & _ & ->).
  unfold load_json in Hcodex. rewrite Hmissing in Hcodex.
  injection Hcodex as Hcodex. rewrite <- Hcodex in *.
  assert (Hsignature : signature = VStr "N/A") by (now injection Hsig).
  subst signature.
  repeat split.
  - now injection Hci.
  - now injection Hcf.
  - rewrite lookup_insert_ne by discriminate. apply lookup_insert_eq.
  - rewrite Hstate. reflexivity.
Qed.

End Codex.

Lemma missing_codex_defaults_witness :
  (∅ : fs) !! CODEX_FILE = None
  /\ match script (platform := Sample.platform) "2026-01-01T00:00:00Z" ∅ with
     | (σ', Ok g) =>
         CI g = 0.96%float /\ CF g = 0.94%float
         /\ σ' !! SELF_CLOCK_FILE
            = Some (File (Document (VDict (self_clock_state g))))
         /\ dict_get (self_clock_state g) "codex_reference_signature"
            = Some (VStr "N/A")
     | (_, Raise _) => False
     end.
Proof.
  split; [reflexivity|].
  destruct (script _ _) as [σ' [g|e]] eqn:E.
  - destruct (missing_codex_defaults (platform := Sample.platform)
                _ ∅ σ' g (lookup_empty CODEX_FILE) E)
      as (_ & Hci & Hcf & _ & Hfile & Hsig).
    exact (conj Hci (conj Hcf (conj Hfile Hsig))).
  - apply (f_equal snd) in E. vm_compute in E. discriminate.
Defined.

(** ** Two runs in succession *)

Section Succession.

Context {platform : Platform}.

(** Updating an updated aspect changes nothing: the formula reads only
    [ring] and [stage], which the update leaves alone. *)
Lemma update_aspect_idempotent (d : dict) (ci cf : float) (d' : dict) :
  update_aspect d ci cf = Ok d' -> update_aspect d' ci cf = Ok d'.
Proof.
  intros H. unfold update_aspect in H. repeat bind_inv H.
  injection H as <-.
  match goal with
  | |- update_aspect (dict_set (dict_set d "activation" ?A) "field_vector" ?F)
         _ _ = _ =>
      set (act := A); set (fv := F)
  end.
  unfold update_aspect, getitem in *.
  rewrite !(dict_get_set_ne _ "field_vector") by discriminate.
  rewrite !(dict_get_set_ne _ "activation") by discriminate.
  repeat match goal with
         | Hstep : _ = Ok _ |- _ => rewrite Hstep; clear Hstep; cbn [bind]
         end.
  fold act fv. f_equal.
  rewrite (dict_set_same _ "activation" act).
  - apply dict_set_set.
  - rewrite dict_get_set_ne by discriminate. apply dict_get_set_eq.
Qed.

Lemma mapM_dicts (f : dict -> result dict) (l : list dict) :
  mapM (fun aspect => d <- dict_of aspect;; f d)%py (map VDict l) = mapM f l.
Proof.
  induction l as [|d l IH]; simpl; [reflexivity|]. now rewrite IH.
Qed.

(** The aspects a successful run wrote are those it would compute again. *)
Lemma harmonized_again (current : value) (ci cf : float) (U : list dict) :
  (aspects <- subscript current "aspects";;
   aspects <- iterate aspects;;
   mapM (fun aspect => d <- dict_of aspect;; update_aspect d ci cf)
        aspects)%py = Ok U ->
  mapM (fun d => update_aspect d ci cf) U = Ok U.
Proof.
  intros H. bind_inv H. bind_inv H.
  match goal with
  | |- mapM ?f U = _ =>
      assert (Hidem : forall a b, (d <- dict_of a;; f d)%py = Ok b ->
                                  f b = Ok b)
  end.
  { intros a b Hab. bind_inv Hab. eapply update_aspect_idempotent, Hab. }
  revert U H. generalize x0. clear.  intros l.
  induction l as [|a l IH]; simpl; intros U H.
  - now injection H as <-.
  - bind_inv H. bind_inv H. injection H as <-. simpl.
    bind_inv Hx.
    rewrite (update_aspect_idempotent _ _ _ _ Hx), (IH _ Hx0). reflexivity.
Qed.

(** C8: a second run right after a first one, on the state file the
    first wrote and with the codex file as it was, computes the same
    aspects, hence the same [field_vector] for every aspect; and each of
    the two runs adds one entry to the log. *)
Theorem second_run_same_field_vectors
    (t1 t2 : string) (σ σ1 σ2 : fs) (g1 g2 : globals) :
  script t1 σ = (σ1, Ok g1) ->
  script t2 σ1 = (σ2, Ok g2) ->
  σ1 !! CODEX_FILE = σ !! CODEX_FILE
  /\ σ1 !! SELF_CLOCK_FILE
     = Some (File (Document (VDict (self_clock_state g1))))
  /\ CI g2 = CI g1 /\ CF g2 = CF g1
  /\ UPDATED_ASPECTS g2 = UPDATED_ASPECTS g1
  /\ map (fun aspect => dict_get aspect "field_vector") (UPDATED_ASPECTS g2)
     = map (fun aspect => dict_get aspect "field_vector") (UPDATED_ASPECTS g1)
  /\ exists old : list value,
       log_of σ = Some old
       /\ log_of σ1
          = Some (old ++ [log_entry t1 (SCI g1) (ENERGY_MATTER_SUM g1)])
       /\ log_of σ2
          = Some (old ++ [log_entry t1 (SCI g1) (ENERGY_MATTER_SUM g1);
                          log_entry t2 (SCI g2) (ENERGY_MATTER_SUM g2)]).
Proof.
  intros H1 H2.
  destruct (script_log _ _ _ _ H1) as (old & Hold & Hentries1 & Hfile1).
  destruct (script_log _ _ _ _ H2) as (old1 & Hold1 & Hentries2 & Hfile2).
  apply script_Ok_inv in H1, H2.
  destruct H1 as (σm & sig1 & _ & Hcodex1 & _ & Hci1 & Hcf1 & Hasp1 & _ & _
                  & Hmkdir & _ & Hstate1 & _ & _ & _ & _ & Hσ1).
  destruct H2 as (_ & _ & _ & Hcodex2 & Hcur2 & Hci2 & Hcf2 & Hasp2 & _).
  destruct (mkdir_Ok_inv _ _ _ _ Hmkdir) as [_ Hother].
  assert (Hcodexfile : σ1 !! CODEX_FILE = σ !! CODEX_FILE).
  { rewrite Hσ1, !lookup_insert_ne by discriminate.
    apply Hother. discriminate. }
  assert (Hstatefile : σ1 !! SELF_CLOCK_FILE
                       = Some (File (Document (VDict (self_clock_state g1))))).
  { rewrite Hσ1, lookup_insert_ne by discriminate. apply lookup_insert_eq. }
  rewrite (load_json_ext _ _ σ1 σ Hcodexfile), Hcodex1 in Hcodex2.
  injection Hcodex2 as Hcodex2. rewrite <- Hcodex2 in Hci2, Hcf2.
  assert (HCI : CI g2 = CI g1) by congruence.
  assert (HCF : CF g2 = CF g1) by congruence.
  assert (HU : UPDATED_ASPECTS g2 = UPDATED_ASPECTS g1).
  { unfold load_json in Hcur2. rewrite Hstatefile in Hcur2.
    injection Hcur2 as Hcur2. rewrite <- Hcur2, Hstate1 in Hasp2.
    cbn in Hasp2. rewrite mapM_dicts, HCI, HCF in Hasp2.
    rewrite (harmonized_again _ _ _ _ Hasp1) in Hasp2. congruence. }
  repeat split; try assumption.
  - now rewrite HU.
  - exists old. split; [exact Hold|]. split.
    + unfold log_of. now rewrite Hfile1, Hentries1.
    + assert (Hold1' : old1 = log_entries g1).
      { unfold log_of in Hold1. rewrite Hfile1 in Hold1. congruence. }
      unfold log_of. rewrite Hfile2, Hentries2, Hold1', Hentries1.
      now rewrite <- app_assoc.
Qed.

End Succession.

Lemma second_run_same_field_vectors_witness :
  match script (platform := Sample.platform) "2026-01-01T00:00:00Z" ∅ with
  | (σ1, Ok g1) =>
      match script (platform := Sample.platform) "2026-01-02T00:00:00Z" σ1
      with
      | (σ2, Ok g2) =>
          UPDATED_ASPECTS g2 = UPDATED_ASPECTS g1
          /\ length (UPDATED_ASPECTS g1) = 32%nat
          /\ exists entries, log_of σ2 = Some entries
                             /\ length entries = 2%nat
      | (_, Raise _) => False
      end
  | (_, Raise _) => False
  end.
Proof.
  destruct (script _ ∅) as [σ1 [g1|e]] eqn:E1.
  - destruct (script _ σ1) as [σ2 [g2|e]] eqn:E2.
    + destruct (second_run_same_field_vectors
                  (platform := Sample.platform) _ _ ∅ σ1 σ2 g1 g2 E1 E2)
        as (_ & _ & _ & _ & HU & _ & old & Hold & _ & Hlog).
      split; [exact HU|]. split.
      * set (f := fun r : fs * result globals =>
                    match snd r with
                    | Ok g => length (UPDATED_ASPECTS g)
                    | Raise _ => 0%nat
                    end).
        change (f (σ1, Ok g1) = 32%nat). rewrite <- E1.
        vm_compute. reflexivity.
      * eexists. split; [exact Hlog|].
        injection Hold as <-. reflexivity.
    + exfalso.
      assert (E : snd (script (platform := Sample.platform)
                         "2026-01-02T00:00:00Z"
                         (fst (script (platform := Sample.platform)
                                 "2026-01-01T00:00:00Z" ∅)))
                  = Raise e)
        by (rewrite E1; simpl fst; now rewrite E2).
      vm_compute in E. discriminate.
  - apply (f_equal snd) in E1. vm_compute in E1. discriminate.
Defined.

(** ** Rounding a positive number never gives zero *)

Local Open Scope Z_scope.

Lemma shr_1_value (mrs : shr_record) :
  0 <= shr_m mrs -> shr_m (shr_1 mrs) = shr_m mrs / 2.
Proof.
  destruct mrs as [m r s]. simpl. intros Hm.
  destruct m as [|[p|p|]|p]; simpl shr_m; try lia.
  - reflexivity.
  - apply (Z.div_unique _ _ _ 1); lia.
  - apply (Z.div_unique _ _ _ 0); lia.
  - reflexivity.
Qed.

Lemma shr_1_nonneg (mrs : shr_record) :
  0 <= shr_m mrs -> 0 <= shr_m (shr_1 mrs).
Proof.
  intros H. rewrite shr_1_value by exact H. apply Z.div_pos; lia.
Qed.

Lemma iter_shr_1_value (p : positive) (mrs : shr_record) :
  0 <= shr_m mrs ->
  shr_m (SpecFloat.iter_pos shr_1 p mrs) = shr_m mrs / 2 ^ Zpos p.
Proof.
  revert mrs. induction p as [p IH|p IH|]; intros mrs Hm; simpl SpecFloat.iter_pos.
  - assert (Hpow : 0 < 2 ^ Zpos p) by (apply Z.pow_pos_nonneg; lia).
    assert (H1 : 0 <= shr_m (shr_1 mrs)) by (apply shr_1_nonneg, Hm).
    assert (H2 : 0 <= shr_m (SpecFloat.iter_pos shr_1 p (shr_1 mrs))).
    { rewrite IH by exact H1. apply Z.div_pos; assumption. }
    rewrite IH by exact H2. rewrite IH by exact H1.
    rewrite shr_1_value by exact Hm.
    rewrite !Z.div_div by lia.
    f_equal.
    replace (Zpos p~1) with (1 + Zpos p + Zpos p) by lia.
    rewrite (Z.pow_add_r 2 (1 + Zpos p) (Zpos p)) by lia.
    rewrite (Z.pow_add_r 2 1 (Zpos p)) by lia. lia.
  - assert (Hpow : 0 < 2 ^ Zpos p) by (apply Z.pow_pos_nonneg; lia).
    assert (H2 : 0 <= shr_m (SpecFloat.iter_pos shr_1 p mrs)).
    { rewrite IH by exact Hm. apply Z.div_pos; assumption. }
    rewrite IH by exact H2. rewrite IH by exact Hm.
    rewrite Z.div_div by lia.
    f_equal.
    replace (Zpos p~0) with (Zpos p + Zpos p) by lia.
    now rewrite Z.pow_add_r by lia.
  - rewrite shr_1_value by exact Hm. reflexivity.
Qed.

Lemma shr_record_of_loc_m (m : Z) (l : location) :
  shr_m (shr_record_of_loc m l) = m.
Proof. destruct l as [|[]]; reflexivity. Qed.

(** Shifting to the exponent of the format keeps a positive mantissa
    positive, as long as the exponent is not below the least one. *)
Lemma shr_fexp_positive (m : positive) (e : Z) (l : location) :
  -1074 <= e ->
  0 < shr_m (fst (shr_fexp prec emax (Zpos m) e l))
  /\ -1074 <= snd (shr_fexp prec emax (Zpos m) e l).
Proof.
  intros He. unfold shr_fexp, shr. simpl Zdigits2.
  pose proof (digits2_pos_lower m) as Hd.
  set (d := Zpos (digits2_pos m)) in *.
  assert (Hf : fexp prec emax (d + e) = Z.max (d + e - 53) (-1074))
    by reflexivity.
  destruct (fexp prec emax (d + e) - e) as [|p|p] eqn:En; simpl fst; simpl snd.
  - rewrite shr_record_of_loc_m. lia.
  - rewrite iter_shr_1_value by (rewrite shr_record_of_loc_m; lia).
    rewrite shr_record_of_loc_m. split; [|lia].
    assert (Hp : Zpos p = d - 53) by lia.
    apply Z.lt_le_trans with (2 ^ 52); [reflexivity|].
    apply Z.div_le_lower_bound; [apply Z.pow_pos_nonneg; lia|].
    rewrite <- Z.pow_add_r by lia.
    replace (Zpos p + 52) with (d - 1) by lia. exact Hd.
  - rewrite shr_record_of_loc_m. lia.
Qed.

Lemma round_nearest_even_positive (m : Z) (l : location) :
  0 < m -> 0 < round_nearest_even m l.
Proof.
  intros Hm. destruct l as [|[]]; simpl; try lia.
  destruct (Z.even m); lia.
Qed.

Lemma binary_round_aux_positive (s : bool) (m : positive) (e : Z)
    (l : location) :
  -1074 <= e ->
  positive_or_infinite s (binary_round_aux prec emax s (Zpos m) e l).
Proof.
  intros He. unfold binary_round_aux.
  destruct (shr_fexp_positive m e l He) as [H1 H2].
  destruct (shr_fexp prec emax (Zpos m) e l) as [mrs' e'].
  simpl fst in H1. simpl snd in H2.
  pose proof (round_nearest_even_positive (shr_m mrs')
                (loc_of_shr_record mrs') H1) as H3.
  destruct (round_nearest_even (shr_m mrs') (loc_of_shr_record mrs'))
    as [|m1|m1]; try lia.
  destruct (shr_fexp_positive m1 e' loc_Exact H2) as [H4 _].
  destruct (shr_fexp prec emax (Zpos m1) e' loc_Exact) as [mrs'' e''].
  simpl fst in H4.
  destruct (shr_m mrs'') as [|m2|m2]; try lia.
  destruct (e'' <=? emax - prec); reflexivity.
Qed.

Lemma binary_normalize_positive (z e : Z) :
  0 < z -> -1074 <= e ->
  positive_or_infinite false (binary_normalize prec emax z e false).
Proof.
  intros Hz He. destruct z as [|p|p]; try lia.
  unfold binary_normalize, binary_round.
  assert (Hf : -1074 <= fexp prec emax (Zpos (digits2_pos p) + e)).
  { unfold fexp, SpecFloat.emin, prec, emax. lia. }
  set (f := fexp prec emax (Zpos (digits2_pos p) + e)) in *.
  assert (He' : -1074 <= snd (shl_align p e f)).
  { unfold shl_align. destruct (f - e); simpl; lia. }
  destruct (shl_align p e f) as [mz ez].
  now apply binary_round_aux_positive.
Qed.

(** ** The difference of two ordered floats is positive *)

Lemma digits2_pos_upper (p : positive) :
  Zpos p < 2 ^ Zpos (digits2_pos p).
Proof.
  induction p as [p IH|p IH|]; simpl digits2_pos;
    rewrite ?Pos2Z.inj_succ, ?Z.pow_succ_r by lia; lia.
Qed.

Lemma iter_xO_value (m d : positive) :
  Zpos (Pos.iter xO m d) = Zpos m * 2 ^ Zpos d.
Proof.
  induction d using Pos.peano_ind.
  - simpl. lia.
  - rewrite Pos.iter_succ, Pos2Z.inj_succ, Z.pow_succ_r by lia.
    rewrite Pos2Z.inj_xO, IHd. lia.
Qed.

Lemma shl_align_value (m : positive) (e e' : Z) :
  e' <= e -> Zpos (fst (shl_align m e e')) = Zpos m * 2 ^ (e - e').
Proof.
  intros H. unfold shl_align.
  destruct (e' - e) as [|d|d] eqn:E; simpl fst.
  - replace (e - e') with 0 by lia. lia.
  - lia.
  - rewrite iter_xO_value. f_equal. f_equal. lia.
Qed.

(** What validity says of a finite float: its exponent is at least the
    least one, its mantissa has at most 53 digits, and exactly 53 above
    the least exponent. *)
Lemma valid_finite (s : bool) (m : positive) (e : Z) :
  SpecFloat.valid_binary prec emax (S754_finite s m e) = true ->
  -1074 <= e
  /\ Zpos m < 2 ^ 53
  /\ (-1074 < e -> 2 ^ 52 <= Zpos m).
Proof.
  unfold SpecFloat.valid_binary, bounded, canonical_mantissa.
  intros H. apply andb_prop in H as [H _]. apply Z.eqb_eq in H.
  unfold fexp, SpecFloat.emin, prec, emax in H.
  pose proof (digits2_pos_upper m) as Hu.
  pose proof (digits2_pos_lower m) as Hl.
  set (d := Zpos (digits2_pos m)) in *.
  split; [lia|]. split.
  - apply Z.lt_le_trans with (2 ^ d); [exact Hu|].
    apply Z.pow_le_mono_r; lia.
  - intros He. replace d with 53 in Hl by lia. exact Hl.
Qed.

Lemma SFltb_zero_positive (x : spec_float) :
  positive_or_infinite false x -> SFltb (S754_zero false) x = true.
Proof. destruct x as [| | |s m e]; simpl; try tauto; now intros ->. Qed.

Lemma SFsub_positive (X Y : spec_float) :
  SpecFloat.valid_binary prec emax X = true ->
  SpecFloat.valid_binary prec emax Y = true ->
  SFltb Y X = true ->
  positive_or_infinite false (SFsub prec emax X Y).
Proof.
  intros VX VY Hlt. unfold SFltb in Hlt.
  destruct X as [sx|sx| |sx mx ex], Y as [sy|sy| |sy my ey];
    simpl in Hlt; try discriminate.
  - (* zero, infinity *) destruct sy; [reflexivity | discriminate].
  - (* zero, finite *) destruct sy; [reflexivity | discriminate].
  - (* infinity, zero *) destruct sx; [discriminate | reflexivity].
  - (* infinity, infinity *) destruct sy, sx; try discriminate. reflexivity.
  - (* infinity, finite *) destruct sx; [discriminate | reflexivity].
  - (* finite, zero *) destruct sx; [discriminate | reflexivity].
  - (* finite, infinity *) destruct sy; [reflexivity | discriminate].
  - (* finite, finite *)
    destruct (valid_finite _ _ _ VX) as (Hex & Hmx & Hmx').
    destruct (valid_finite _ _ _ VY) as (Hey & Hmy & Hmy').
    unfold SFsub.
    apply binary_normalize_positive; [|lia].
    rewrite (shl_align_value mx ex (Z.min ex ey)) by lia.
    rewrite (shl_align_value my ey (Z.min ex ey)) by lia.
    assert (Hpow : forall k, 1 <= k -> 2 <= 2 ^ k).
    { intros k Hk. change 2 with (2 ^ 1) at 1.
      apply Z.pow_le_mono_r; lia. }
    assert (Hpos : forall k, 0 <= k -> 0 < 2 ^ k).
    { intros k Hk. apply Z.pow_pos_nonneg; lia. }
    change (2 ^ 53) with (2 * 2 ^ 52) in *.
    destruct sy, sx; cbv beta iota delta [cond_Zopp]; try discriminate.
    + (* both negative *)
      destruct (ey ?= ex) eqn:E; try discriminate.
      * apply Z.compare_eq in E. subst ey.
        rewrite Z.min_id, Z.sub_diag. rewrite Z.pow_0_r, Z.mul_1_r.
        destruct (Pos.compare_cont Eq my mx) eqn:C; try discriminate.
        change (Pos.compare_cont Eq my mx) with (my ?= mx)%positive in C.
        apply Pos.compare_gt_iff in C.
        apply Pos2Z.pos_lt_pos in C. lia.
      * apply Z.compare_gt_iff in E.
        rewrite Z.min_l by lia. rewrite Z.sub_diag. rewrite Z.pow_0_r, Z.mul_1_r.
        assert (H1 : 2 <= 2 ^ (ey - ex)) by (apply Hpow; lia).
        assert (H2 : 2 ^ 52 <= Zpos my) by (apply Hmy'; lia).
        nia.
    + (* Y negative, X positive *)
      assert (H1 : 0 < 2 ^ (ex - Z.min ex ey)) by (apply Hpos; lia).
      assert (H2 : 0 < 2 ^ (ey - Z.min ex ey)) by (apply Hpos; lia).
      nia.
    + (* both positive *)
      destruct (ey ?= ex) eqn:E; try discriminate.
      * apply Z.compare_eq in E. subst ey.
        rewrite Z.min_id, Z.sub_diag. rewrite Z.pow_0_r, Z.mul_1_r.
        destruct (Pos.compare_cont Eq my mx) eqn:C; try discriminate.
        change (Pos.compare_cont Eq my mx) with (my ?= mx)%positive in C.
        change ((my < mx)%positive) in C.
        apply Pos2Z.pos_lt_pos in C. lia.
      * change (ey < ex) in E.
        rewrite Z.min_r by lia. rewrite Z.sub_diag. rewrite Z.pow_0_r, Z.mul_1_r.
        assert (H1 : 2 <= 2 ^ (ex - ey)) by (apply Hpow; lia).
        assert (H2 : 2 ^ 52 <= Zpos mx) by (apply Hmx'; lia).
        nia.
Qed.

Lemma float_sub_positive (x y : float) :
  PrimFloat.ltb y x = true -> PrimFloat.ltb 0 (x - y) = true.
Proof.
  rewrite !FloatAxioms.ltb_spec, FloatAxioms.sub_spec. intros H.
  change (Prim2SF 0) with (S754_zero false).
  apply SFltb_zero_positive, SFsub_positive;
    auto using FloatAxioms.Prim2SF_valid.
Qed.

(** For two floats that are not NaN, [not (h <= l)] is [l < h]. *)
Lemma SFcompare_swap (x y : spec_float) :
  SFcompare y x = option_map CompOpp (SFcompare x y).
Proof.
  destruct x as [sx|sx| |sx mx ex], y as [sy|sy| |sy my ey]; simpl;
    try reflexivity;
    try (destruct sx; reflexivity); try (destruct sy; reflexivity);
    try (destruct sx, sy; reflexivity).
  destruct sy, sx; simpl; try reflexivity.
  - rewrite (Z.compare_antisym ey ex).
    destruct (ey ?= ex); simpl; try reflexivity.
    change (Pos.compare_cont Eq my mx) with (my ?= mx)%positive.
    change (Pos.compare_cont Eq mx my) with (mx ?= my)%positive.
    rewrite (Pos.compare_antisym my mx). now destruct (my ?= mx)%positive.
  - rewrite (Z.compare_antisym ey ex).
    destruct (ey ?= ex); simpl; try reflexivity.
    change (Pos.compare_cont Eq my mx) with (my ?= mx)%positive.
    change (Pos.compare_cont Eq mx my) with (mx ?= my)%positive.
    rewrite (Pos.compare_antisym my mx). now destruct (my ?= mx)%positive.
Qed.

Lemma float_not_le_lt (h l : float) :
  is_nan h = false -> is_nan l = false ->
  PrimFloat.leb h l = false -> PrimFloat.ltb l h = true.
Proof.
  unfold is_nan. rewrite !FloatAxioms.eqb_spec, FloatAxioms.leb_spec,
    FloatAxioms.ltb_spec.
  unfold SFeqb, SFleb, SFltb.
  set (H := Prim2SF h). set (L := Prim2SF l).
  rewrite (SFcompare_swap H L).
  intros Hh Hl.
  destruct (SFcompare H L) as [[]|] eqn:E; simpl; try discriminate;
    try reflexivity.
  exfalso. destruct H as [| | |], L as [| | |]; simpl in *;
    discriminate.
Qed.

(** ** The guard of [normalize] *)

(** With one integer and one float bound the guard can pass and the
    difference still round to zero: the division raises. *)
Lemma normalize_mixed_bounds_divide_by_zero :
  num_le (NInt (2 ^ 53 + 1)) (NFloat 9007199254740992) = false
  /\ normalize (NFloat 0) (NFloat 9007199254740992) (NInt (2 ^ 53 + 1))
     = Raise ZeroDivisionError.
Proof. split; vm_compute; reflexivity. Qed.

(** With a NaN bound the guard passes and the difference is NaN, which
    is not positive; the quotient is NaN. *)
Lemma normalize_nan_bound :
  num_le (NFloat 1) (NFloat nan) = false
  /\ PrimFloat.ltb 0 (1 - nan) = false
  /\ normalize (NFloat 0) (NFloat nan) (NFloat 1) = Ok nan.
Proof. repeat split; vm_compute; reflexivity. Qed.

(** C9, amended: [normalize] returns 0.0 when [hi <= lo] and otherwise
    evaluates [(v - lo) / (hi - lo)]; on that branch [hi - lo > 0] when
    the bounds are both integers, and when they are both floats and
    neither is NaN; the result is not clamped to [0, 1]. *)
Theorem normalize_contract (v lo hi : num) :
  (num_le hi lo = true -> normalize v lo hi = Ok 0%float)
  /\ (num_le hi lo = false ->
      normalize v lo hi
      = (a <- num_sub v lo;; b <- num_sub hi lo;; num_truediv a b)%py)
  /\ (forall l h : Z,
        lo = NInt l -> hi = NInt h -> num_le hi lo = false ->
        num_sub hi lo = Ok (NInt (h - l)) /\ 0 < h - l)
  /\ (forall l h : float,
        lo = NFloat l -> hi = NFloat h -> num_le hi lo = false ->
        is_nan l = false -> is_nan h = false ->
        num_sub hi lo = Ok (NFloat (h - l))
        /\ PrimFloat.ltb 0 (h - l) = true)
  /\ (normalize (NInt 2) (NInt 0) (NInt 1) = Ok 2%float
      /\ PrimFloat.ltb 1 2 = true)
  /\ (normalize (NFloat (-1)) (NFloat 0) (NFloat 1) = Ok (-1)%float
      /\ PrimFloat.ltb (-1) 0 = true).
Proof.
  split; [|split; [|split; [|split; [|split]]]].
  - intros H. unfold normalize. now rewrite H.
  - intros H. unfold normalize. now rewrite H.
  - intros l h -> -> H. simpl in H. apply Z.leb_gt in H.
    split; [reflexivity | lia].
  - intros l h -> -> H Hl Hh. simpl in H.
    split; [reflexivity|].
    apply float_sub_positive, float_not_le_lt; assumption.
  - split; vm_compute; reflexivity.
  - split; vm_compute; reflexivity.
Qed.

(** * More of the script *)

(** ** Running a program forwards, and the ways it fails *)

Lemma bindM_Ok {A B} (m : M A) (k : A -> M B) (σ σ1 : fs) (a : A) :
  m σ = (σ1, Ok a) -> bindM m k σ = k a σ1.
Proof. unfold bindM. now intros ->. Qed.

Lemma bindM_Raise_inv {A B} (m : M A) (k : A -> M B) (σ σ' : fs) (e : exn) :
  bindM m k σ = (σ', Raise e) ->
  m σ = (σ', Raise e)
  \/ exists σ1 a, m σ = (σ1, Ok a) /\ k a σ1 = (σ', Raise e).
Proof.
  unfold bindM. destruct (m σ) as [σ1 [a|e']]; [eauto|].
  intros [= -> ->]. now left.
Qed.

Lemma lift_inv {A} (r r' : result A) (σ σ' : fs) :
  lift r σ = (σ', r') -> σ' = σ /\ r' = r.
Proof. unfold lift. now intros [= -> ->]. Qed.

Lemma load_json_Raise_inv (path : string) (fallback : value) (σ σ' : fs)
    (e : exn) :
  load_json path fallback σ = (σ', Raise e) ->
  σ' = σ /\ (e = IsADirectoryError \/ e = UnicodeDecodeError).
Proof.
  unfold load_json.
  destruct (σ !! path) as [[|[| |v]]|]; intros [= <- <-] || intros [= <-];
    auto.
Qed.

Lemma write_json_Raise_inv (path : string) (v : value) (σ σ' : fs) (e : exn) :
  write_json path v σ = (σ', Raise e) -> σ' = σ /\ e = IsADirectoryError.
Proof.
  unfold write_json.
  destruct (σ !! path) as [[|c]|]; intros [= <- <-] || intros [=]; auto.
Qed.

Lemma mkdir_Raise_inv (path : string) (σ σ' : fs) (e : exn) :
  mkdir path σ = (σ', Raise e) -> σ' = σ /\ e = FileExistsError.
Proof.
  unfold mkdir.
  destruct (σ !! path) as [[|c]|]; intros [= <- <-] || intros [=]; auto.
Qed.

Lemma write_json_Ok (path : string) (v : value) (σ : fs) :
  σ !! path <> Some Dir ->
  write_json path v σ = (<[path := File (Document v)]> σ, Ok tt).
Proof.
  unfold write_json. destruct (σ !! path) as [[|c]|]; congruence.
Qed.

Lemma load_json_Ok (path : string) (fallback v : value) (σa σb : fs) :
  snd (load_json path fallback σa) = Ok v ->
  σb !! path = σa !! path ->
  load_json path fallback σb = (σb, Ok v).
Proof.
  intros H E. rewrite load_json_state.
  now rewrite (load_json_ext path fallback σb σa E), H.
Qed.

Ltac bindM_fail H :=
  let σ1 := fresh "σ" in
  let a := fresh "a" in
  let Ha := fresh "Hrun" in
  apply bindM_Raise_inv in H; destruct H as [H | (σ1 & a & Ha & H)].

(** ** The paths a run touches *)

Section Leaves.

Context {A B : Type} (p : string).

Lemma leaves_ret (a : A) : leaves p (ret a).
Proof. intros σ σ' r. unfold ret. now intros [= <- _]. Qed.

Lemma leaves_lift (r : result A) : leaves p (lift r).
Proof. intros σ σ' r'. unfold lift. now intros [= <- _]. Qed.

Lemma leaves_load_json (path : string) (fallback : value) :
  leaves p (load_json path fallback).
Proof. intros σ σ' r. rewrite load_json_state. now intros [= <- _]. Qed.

Lemma leaves_mkdir (path : string) : p <> path -> leaves p (mkdir path).
Proof.
  intros Hp σ σ' r. unfold mkdir.
  destruct (σ !! path) as [[|c]|]; intros [= <- _]; auto.
  now apply lookup_insert_ne.
Qed.

Lemma leaves_write_json (path : string) (v : value) :
  p <> path -> leaves p (write_json path v).
Proof.
  intros Hp σ σ' r. unfold write_json.
  destruct (σ !! path) as [[|c]|]; intros [= <- _]; auto;
    now apply lookup_insert_ne.
Qed.

Lemma leaves_bindM (m : M A) (k : A -> M B) :
  leaves p m -> (forall a, leaves p (k a)) -> leaves p (bindM m k).
Proof.
  intros Hm Hk σ σ' r. unfold bindM.
  destruct (m σ) as [σ1 [a|e]] eqn:E.
  - intros H. rewrite (Hk a _ _ _ H). eapply Hm, E.
  - intros [= <- _]. eapply Hm, E.
Qed.

End Leaves.

Section Touched.

Context {platform : Platform}.

Lemma script_leaves (p TIMESTAMP : string) :
  p <> DATA_DIR -> p <> SELF_CLOCK_FILE -> p <> LOG_FILE ->
  leaves p (script TIMESTAMP).
Proof.
  intros Hd Hs Hl. unfold script.
  repeat first
    [ apply leaves_bindM; [|intros ?]
    | apply leaves_ret
    | apply leaves_lift
    | apply leaves_load_json
    | now apply leaves_mkdir
    | now apply leaves_write_json ].
Qed.

(** X1: whatever the runs do, and whether they all succeed or one of
    them raises, they change nothing but the [data] directory, the state
    file and the log file; the codex file in particular is only ever
    read. *)
Theorem runs_touch_only_their_own_paths
    (timestamps : list string) (σ σ' : fs) (r : result (list globals)) :
  run_all timestamps σ = (σ', r) ->
  σ' !! CODEX_FILE = σ !! CODEX_FILE
  /\ forall p : string,
       p <> DATA_DIR -> p <> SELF_CLOCK_FILE -> p <> LOG_FILE ->
       σ' !! p = σ !! p.
Proof.
  assert (Hall : forall p, p <> DATA_DIR -> p <> SELF_CLOCK_FILE ->
                           p <> LOG_FILE -> leaves p (run_all timestamps)).
  { intros p Hd Hs Hl.
    induction timestamps as [|t ts IH]; simpl.
    - apply leaves_ret.
    - apply leaves_bindM; [now apply script_leaves|]. intros g.
      apply leaves_bindM; [exact IH|]. intros gs. apply leaves_ret. }
  intros H. split.
  - eapply Hall; [discriminate..|exact H].
  - intros p Hd Hs Hl. eapply Hall; eauto.
Qed.

End Touched.

Lemma runs_touch_only_their_own_paths_witness :
  fst (run_all (platform := Sample.platform)
               ["2026-01-01T00:00:00Z"; "2026-01-02T00:00:00Z"] ∅)
    !! CODEX_FILE = None.
Proof.
  destruct (run_all _ _) as [σ' r] eqn:E.
  exact (proj1 (runs_touch_only_their_own_paths
                  (platform := Sample.platform) _ ∅ σ' r E)).
Defined.

(** ** What a failed run leaves behind *)

Lemma value_get_Raise_inv (v : value) (k : string) (default : value)
    (e : exn) :
  value_get v k default = Raise e -> e = AttributeError.
Proof. destruct v; simpl; congruence. Qed.

Lemma append_Raise_inv (x entry : value) (e : exn) :
  append x entry = Raise e -> e = AttributeError.
Proof. destruct x; simpl; congruence. Qed.

Section Failure.

Context {platform : Platform}.


End Failure.


(** ** A file that is not JSON is a missing file *)

Lemma nothing_to_read_load (path : string) (fallback : value) (σ : fs) :
  nothing_to_read (σ !! path) ->
  snd (load_json path fallback σ) = Ok fallback.
Proof. unfold load_json. now intros [-> | ->]. Qed.

Lemma nothing_to_read_not_Dir (o : option node) :
  nothing_to_read o -> o <> Some Dir.
Proof. intros [-> | ->]; discriminate. Qed.

Lemma same_but_unreadable_insert (p q : string) (n : node) (σa σb : fs) :
  same_but_unreadable p σa σb ->
  same_but_unreadable p (<[q := n]> σa) (<[q := n]> σb).
Proof.
  intros H q'. destruct (decide (q = q')) as [<- | Hne].
  - left. now rewrite !lookup_insert_eq.
  - rewrite !lookup_insert_ne by exact Hne. apply H.
Qed.

Lemma load_json_fst (path : string) (fallback : value) (σ : fs) :
  fst (load_json path fallback σ) = σ.
Proof. unfold load_json. now destruct (σ !! path) as [[|[| |v]]|]. Qed.

Section Respects.

Context {A B : Type} (p : string).

Lemma respects_ret (a : A) : respects p (ret a).
Proof. intros σa σb H. now split. Qed.

Lemma respects_lift (r : result A) : respects p (lift r).
Proof. intros σa σb H. now split. Qed.

Lemma respects_load_json (path : string) (fallback : value) :
  respects p (load_json path fallback).
Proof.
  intros σa σb H. split.
  - destruct (H path) as [E | (_ & Ha & Hb)].
    + now apply load_json_ext.
    + now rewrite (nothing_to_read_load _ _ σa Ha),
                  (nothing_to_read_load _ _ σb Hb).
  - now rewrite !load_json_fst.
Qed.

Lemma respects_mkdir (path : string) : p <> path -> respects p (mkdir path).
Proof.
  intros Hp σa σb H. unfold mkdir.
  destruct (H path) as [E | (E & _)]; [|congruence].
  rewrite E. destruct (σb !! path) as [[|c]|]; simpl; split; auto.
  now apply same_but_unreadable_insert.
Qed.

Lemma respects_write_json (path : string) (v : value) :
  respects p (write_json path v).
Proof.
  intros σa σb H.
  assert (Hdir : σa !! path = Some Dir <-> σb !! path = Some Dir).
  { destruct (H path) as [E | (_ & Ha & Hb)]; [now rewrite E|].
    apply nothing_to_read_not_Dir in Ha, Hb. tauto. }
  pose proof (same_but_unreadable_insert p path (File (Document v)) _ _ H).
  unfold write_json.
  destruct (σa !! path) as [[|ca]|], (σb !! path) as [[|cb]|]; simpl;
    try (split; [reflexivity | assumption]);
    solve [ exfalso; apply (proj1 Hdir eq_refl) || discriminate
          | destruct Hdir as [Hd _]; now specialize (Hd eq_refl)
          | destruct Hdir as [_ Hd]; now specialize (Hd eq_refl) ].
Qed.

Lemma respects_bindM (m : M A) (k : A -> M B) :
  respects p m -> (forall a, respects p (k a)) -> respects p (bindM m k).
Proof.
  intros Hm Hk σa σb H. unfold bindM.
  destruct (Hm σa σb H) as [Hr Hσ].
  destruct (m σa) as [σa' ra], (m σb) as [σb' rb]. simpl in Hr, Hσ.
  subst rb. destruct ra as [a|e]; [now apply Hk | now split].
Qed.

End Respects.

Section Unreadable.

Context {platform : Platform}.

Lemma script_respects (p TIMESTAMP : string) :
  p <> DATA_DIR -> respects p (script TIMESTAMP).
Proof.
  intros Hp. unfold script.
  repeat first
    [ apply respects_bindM; [|intros ?]
    | apply respects_ret
    | apply respects_lift
    | apply respects_load_json
    | now apply respects_mkdir
    | apply respects_write_json ].
Qed.


End Unreadable.


(** ** Running the script forwards *)

Lemma bindM_lift {A B} (r : result A) (k : A -> M B) (σ : fs) (a : A) :
  r = Ok a -> bindM (lift r) k σ = k a σ.
Proof. now intros ->. Qed.

Lemma mkdir_Ok (path : string) (σ : fs) :
  (forall c, σ !! path <> Some (File c)) ->
  exists σ1, mkdir path σ = (σ1, Ok tt).
Proof.
  intros H. unfold mkdir. destruct (σ !! path) as [[|c]|] eqn:E; eauto.
  now destruct (H c).
Qed.

Lemma log_of_load (σ : fs) (old : list value) :
  log_of σ = Some old ->
  snd (load_json LOG_FILE (VList []) σ) = Ok (VList old)
  /\ σ !! LOG_FILE <> Some Dir.
Proof.
  unfold log_of, load_json.
  destruct (σ !! LOG_FILE) as [[|[| |[]]]|]; intros [= <-]; now split.
Qed.

Section Forwards.

Context {platform : Platform}.

(** When the reads and the computation go through and the state file
    can be written, the run gets as far as the log with the state file
    written. *)
Lemma script_before_log (TIMESTAMP : string) (σ : fs) (codex current : value)
    (ci cf : float) (U : list dict) (sci : float) (ems : num) :
  snd (load_json CODEX_FILE default_codex σ) = Ok codex ->
  snd (load_json SELF_CLOCK_FILE default_self_clock_state σ) = Ok current ->
  (v <- value_get codex "coherence_index_CI" (VFloat 0.96);;
   py_float v)%py = Ok ci ->
  (v <- value_get codex "compassion_constraint_Cf" (VFloat 0.94);;
   py_float v)%py = Ok cf ->
  (aspects <- subscript current "aspects";;
   aspects <- iterate aspects;;
   mapM (fun aspect => d <- dict_of aspect;; update_aspect d ci cf)
        aspects)%py = Ok U ->
  compute_SCI U = Ok sci ->
  compute_ENERGY_MATTER_SUM U = Ok ems ->
  (forall c, σ !! DATA_DIR <> Some (File c)) ->
  σ !! SELF_CLOCK_FILE <> Some Dir ->
  exists (σ1 : fs) (signature : value),
    mkdir DATA_DIR σ = (σ1, Ok tt)
    /\ value_get codex "codex_sync_signature" (VStr "N/A") = Ok signature
    /\ script TIMESTAMP σ
       = (log_entries <- load_json LOG_FILE (VList []);;
          log_entries <-
            lift (append log_entries (log_entry TIMESTAMP sci ems));;
          write_json LOG_FILE (VList log_entries);;
          ret {| codex_data := codex;
                 current_data := current;
                 CI := ci;
                 CF := cf;
                 UPDATED_ASPECTS := U;
                 SCI := sci;
                 ENERGY_MATTER_SUM := ems;
                 self_clock_state :=
                   state_payload TIMESTAMP sci ems signature U;
                 log_entries := log_entries |})%io
           (<[SELF_CLOCK_FILE :=
                File (Document
                        (VDict (state_payload TIMESTAMP sci ems signature U)))]>
              σ1).
Proof.
  intros Hcodex Hcurrent Hci Hcf Hasp Hsci Hems Hdata Hstate.
  destruct (mkdir_Ok DATA_DIR σ Hdata) as [σ1 Hmkdir].
  assert (Hsig : exists signature,
             value_get codex "codex_sync_signature" (VStr "N/A")
             = Ok signature).
  { destruct codex; try discriminate Hci. simpl. eauto. }
  destruct Hsig as [signature Hsig].
  exists σ1, signature. split; [exact Hmkdir|]. split; [exact Hsig|].
  unfold script.
  rewrite (bindM_Ok _ _ σ σ codex) by (now apply (load_json_Ok _ _ _ σ)).
  rewrite (bindM_Ok _ _ σ σ current) by (now apply (load_json_Ok _ _ _ σ)).
  erewrite (bindM_lift _ _ _ _ Hci).
  erewrite (bindM_lift _ _ _ _ Hcf).
  erewrite (bindM_lift _ _ _ _ Hasp).
  erewrite (bindM_lift _ _ _ _ Hsci).
  erewrite (bindM_lift _ _ _ _ Hems).
  rewrite (bindM_Ok _ _ _ _ _ Hmkdir).
  erewrite (bindM_lift _ _ _ _ Hsig).
  erewrite (bindM_Ok _ _ σ1 _ tt); [reflexivity|].
  apply write_json_Ok.
  destruct (mkdir_Ok_inv _ _ _ _ Hmkdir) as [_ Hother].
  rewrite Hother by discriminate. exact Hstate.
Qed.

(** When moreover the log can be read and written, the run succeeds. *)
Lemma script_Ok_intro (TIMESTAMP : string) (σ : fs) (codex current : value)
    (ci cf : float) (U : list dict) (sci : float) (ems : num)
    (old : list value) :
  snd (load_json CODEX_FILE default_codex σ) = Ok codex ->
  snd (load_json SELF_CLOCK_FILE default_self_clock_state σ) = Ok current ->
  (v <- value_get codex "coherence_index_CI" (VFloat 0.96);;
   py_float v)%py = Ok ci ->
  (v <- value_get codex "compassion_constraint_Cf" (VFloat 0.94);;
   py_float v)%py = Ok cf ->
  (aspects <- subscript current "aspects";;
   aspects <- iterate aspects;;
   mapM (fun aspect => d <- dict_of aspect;; update_aspect d ci cf)
        aspects)%py = Ok U ->
  compute_SCI U = Ok sci ->
  compute_ENERGY_MATTER_SUM U = Ok ems ->
  (forall c, σ !! DATA_DIR <> Some (File c)) ->
  σ !! SELF_CLOCK_FILE <> Some Dir ->
  log_of σ = Some old ->
  exists (σ' : fs) (g : globals),
    script TIMESTAMP σ = (σ', Ok g)
    /\ codex_data g = codex /\ current_data g = current
    /\ CI g = ci /\ CF g = cf /\ UPDATED_ASPECTS g = U
    /\ SCI g = sci /\ ENERGY_MATTER_SUM g = ems
    /\ exists signature : value,
         value_get codex "codex_sync_signature" (VStr "N/A") = Ok signature
         /\ self_clock_state g
            = state_payload TIMESTAMP sci ems signature U.
Proof.
  intros Hcodex Hcurrent Hci Hcf Hasp Hsci Hems Hdata Hstate Hlog.
  destruct (script_before_log TIMESTAMP σ codex current ci cf U sci ems)
    as (σ1 & signature & Hmkdir & Hsig & ->); try assumption.
  destruct (mkdir_Ok_inv _ _ _ _ Hmkdir) as [_ Hother].
  destruct (log_of_load σ old Hlog) as [Hload Hnodir].
  match goal with
  | |- context [bindM _ _ ?s] =>
      assert (Hsame : s !! LOG_FILE = σ !! LOG_FILE)
        by (rewrite lookup_insert_ne by discriminate;
            apply Hother; discriminate);
      rewrite (bindM_Ok _ _ s s (VList old))
        by (now apply (load_json_Ok _ _ _ σ));
      erewrite (bindM_lift (append (VList old) _) _ _ _ eq_refl);
      erewrite (bindM_Ok _ _ s _ tt)
        by (apply write_json_Ok; now rewrite Hsame)
  end.
  unfold ret. do 2 eexists. split; [reflexivity|]. simpl.
  repeat split. now exists signature.
Qed.

End Forwards.

(** ** A log that cannot be used *)

Section UnusableLog.

Context {platform : Platform}.



End UnusableLog.



(** ** Runs that are bound to succeed *)

Lemma mapM_total {A B} (f : A -> result B) (l : list A) :
  Forall (fun x => exists y, f x = Ok y) l ->
  exists l', mapM f l = Ok l' /\ length l' = length l.
Proof.
  induction 1 as [|x l [y Hy] _ (l' & Hl' & Hlen)]; simpl.
  - now exists [].
  - exists (y :: l'). rewrite Hy, Hl'. simpl. now rewrite Hlen.
Qed.

Lemma math_1_finite (func : float -> float) (x : float) :
  is_finite (func x) = true -> math_1 func x = Ok (func x).
Proof.
  unfold math_1, is_finite. intros H. apply negb_true_iff in H.
  apply orb_false_iff in H as [-> ->]. reflexivity.
Qed.

Section Settled.

Context {platform : Platform}.

Lemma mapM_update_idempotent (ci cf : float) (l U : list dict) :
  mapM (fun d => update_aspect d ci cf) l = Ok U ->
  mapM (fun d => update_aspect d ci cf) U = Ok U.
Proof.
  revert U. induction l as [|d l IH]; simpl; intros U H.
  - now injection H as <-.
  - bind_inv H. bind_inv H. injection H as <-. simpl.
    now rewrite (update_aspect_idempotent _ _ _ _ Hx), (IH _ Hx0).
Qed.

(** Runs in succession all succeed, and compute the same, once the codex
    gives two numbers, the state file holds aspects that can be updated,
    and nothing stands in the way of the writes. *)
Lemma run_all_Ok_intro (codex : value) (ci cf : float) (U : list dict)
    (sci : float) (ems : num) (signature : value) :
  (v <- value_get codex "coherence_index_CI" (VFloat 0.96);;
   py_float v)%py = Ok ci ->
  (v <- value_get codex "compassion_constraint_Cf" (VFloat 0.94);;
   py_float v)%py = Ok cf ->
  value_get codex "codex_sync_signature" (VStr "N/A") = Ok signature ->
  compute_SCI U = Ok sci ->
  compute_ENERGY_MATTER_SUM U = Ok ems ->
  forall (timestamps : list string) (σ : fs) (current : value)
         (l : list dict),
    snd (load_json CODEX_FILE default_codex σ) = Ok codex ->
    snd (load_json SELF_CLOCK_FILE default_self_clock_state σ) = Ok current ->
    subscript current "aspects" = Ok (VList (map VDict l)) ->
    mapM (fun d => update_aspect d ci cf) l = Ok U ->
    (forall c, σ !! DATA_DIR <> Some (File c)) ->
    σ !! SELF_CLOCK_FILE <> Some Dir ->
    log_of σ <> None ->
    exists (σ' : fs) (gs : list globals),
      run_all timestamps σ = (σ', Ok gs)
      /\ length gs = length timestamps
      /\ Forall (fun g => codex_data g = codex /\ CI g = ci /\ CF g = cf
                          /\ UPDATED_ASPECTS g = U
                          /\ SCI g = sci /\ ENERGY_MATTER_SUM g = ems) gs
      /\ Forall2 (fun t g =>
                    self_clock_state g = state_payload t sci ems signature U)
                 timestamps gs.
Proof.
  intros Hci Hcf Hsig Hsci Hems timestamps.
  induction timestamps as [|t ts IH];
    intros σ current l Hcodex Hcurrent Hsub HU Hdata Hstate Hlog.
  - exists σ, []. repeat split; constructor.
  - destruct (log_of σ) as [old|] eqn:Hold; [clear Hlog | congruence].
    destruct (script_Ok_intro t σ codex current ci cf U sci ems old)
      as (σ1 & g & Hrun & Hg); try assumption.
    { rewrite Hsub. cbn [bind iterate]. now rewrite mapM_dicts. }
    destruct Hg as (Hg1 & Hg2 & Hg3 & Hg4 & Hg5 & Hg6 & Hg7
                    & signature' & Hsig' & Hg8).
    assert (signature' = signature) by congruence. subst signature'.
    destruct (script_log _ _ _ _ Hrun) as (_ & _ & _ & Hlogfile).
    pose proof (script_leaves CODEX_FILE t
                  ltac:(discriminate) ltac:(discriminate) ltac:(discriminate)
                  _ _ _ Hrun) as Hcodexfile.
    pose proof Hrun as Hinv. apply script_Ok_inv in Hinv.
    destruct Hinv as (σm & _ & _ & _ & _ & _ & _ & _ & _ & _ & Hmkdir
                      & _ & _ & _ & _ & _ & _ & Hσ1).
    destruct (mkdir_Ok_inv _ _ _ _ Hmkdir) as [Hdir _].
    assert (Hfile : σ1 !! SELF_CLOCK_FILE
                    = Some (File (Document (VDict (self_clock_state g))))).
    { rewrite Hσ1, lookup_insert_ne by discriminate. apply lookup_insert_eq. }
    destruct (IH σ1 (VDict (self_clock_state g)) U)
      as (σ' & gs & Hrest & Hlen & Hall & Hstates).
    + rewrite <- Hcodex. now apply load_json_ext.
    + unfold load_json. now rewrite Hfile.
    + rewrite Hg8. reflexivity.
    + eapply mapM_update_idempotent, HU.
    + intros c. rewrite Hσ1, !lookup_insert_ne, Hdir by discriminate.
      discriminate.
    + rewrite Hfile. discriminate.
    + unfold log_of. rewrite Hlogfile. discriminate.
    + exists σ', (g :: gs). simpl.
      rewrite (bindM_Ok _ _ _ _ _ Hrun), (bindM_Ok _ _ _ _ _ Hrest).
      split; [reflexivity|]. split; [now rewrite Hlen|].
      split; constructor; solve [now repeat split | assumption].
Qed.


(** The formula of [update_aspect] on numbers of moderate size. *)
Lemma update_aspect_moderate (aspect : dict) (r s : Z) (ci cf : float) :
  dict_get aspect "ring" = Some (VInt r) ->
  dict_get aspect "stage" = Some (VInt s) ->
  -64 <= r <= 64 -> -64 <= s <= 64 ->
  is_finite (libm_sin (nearest_float s / 12 * math_pi)) = true ->
  is_finite (libm_cos (nearest_float r / 8 * math_pi / 2)) = true ->
  exists aspect', update_aspect aspect ci cf = Ok aspect'.
Proof.
  intros Hring Hstage Mr Ms Hsin Hcos.
  unfold update_aspect, getitem. rewrite Hring, Hstage. cbn [bind as_num].
  rewrite float_div_phi. cbn [bind].
  rewrite (truediv_8 (NInt r) Mr). cbn [bind].
  rewrite (truediv_12 (NInt s) Ms). cbn [bind].
  rewrite (field_vector_formula (NInt r) (NInt s) ci cf Mr Ms).
  unfold math_sin, math_cos. cbn [float_value].
  rewrite (math_1_finite _ _ Hsin), (math_1_finite _ _ Hcos). cbn [bind].
  eauto.
Qed.

Lemma in_stages (z : Z) (n : nat) :
  1 <= z <= Z.of_nat n -> In z (map Z.of_nat (seq 1 n)).
Proof.
  intros H. apply in_map_iff. exists (Z.to_nat z). split; [lia|].
  apply in_seq. lia.
Qed.

Lemma default_aspects_update (ci cf : float) :
  libm_finite_on_defaults = true ->
  exists U, mapM (fun d => update_aspect d ci cf) default_aspects = Ok U
            /\ length U = 32%nat.
Proof.
  intros Hlibm. unfold libm_finite_on_defaults in Hlibm.
  apply andb_true_iff in Hlibm as [Hsin Hcos].
  rewrite forallb_forall in Hsin, Hcos.
  rewrite <- default_aspects_length. apply mapM_total.
  apply Forall_lookup. intros i aspect Hlook.
  assert (Hi : (i < 32)%nat).
  { rewrite <- default_aspects_length. eapply lookup_lt_Some, Hlook. }
  rewrite default_aspects_lookup in Hlook.
  destruct (DEFAULT_ASPECTS !! i) as [name|]; [|discriminate].
  injection Hlook as <-.
  apply (update_aspect_moderate _ (Z.of_nat i / 4 + 1)
           (Z.of_nat i mod 12 + 1)); try reflexivity.
  - Z.div_mod_to_equations; lia.
  - Z.div_mod_to_equations; lia.
  - apply Hsin, in_stages. Z.div_mod_to_equations; lia.
  - apply Hcos, in_stages. Z.div_mod_to_equations; lia.
Qed.

(** The two aggregates are defined on what the Harmonizer produced, when
    there is at least one aspect. *)
Lemma aggregates_defined (ci cf : float) (l U : list dict) :
  mapM (fun d => update_aspect d ci cf) l = Ok U ->
  U <> [] ->
  Z.of_nat (length U) < 2 ^ 53 ->
  exists (sci : float) (ems : num),
    compute_SCI U = Ok sci /\ compute_ENERGY_MATTER_SUM U = Ok ems.
Proof.
  intros Hmap Hne Hlen.
  assert (Hall : Forall (fun d' => exists t : float * float,
                   activation_of d' = Ok (NFloat (fst t))
                   /\ energy_matter_of d' = Ok (NFloat (snd t))) U).
  { clear Hne Hlen. apply mapM_Forall2 in Hmap.
    induction Hmap as [|a d' l l' Ha _ IH]; constructor; auto.
    destruct (update_aspect_fields _ _ _ _ Ha) as (act & an & H1 & H2 & _).
    now exists (act, (fst an + snd an)%float). }
  apply Forall_exists_Forall2 in Hall. destruct Hall as [ts Hts].
  unfold compute_SCI, compute_ENERGY_MATTER_SUM.
  rewrite (sum_from_zero activation_of U (map fst ts)); [|
    apply Forall2_fmap_r; eapply Forall2_impl; [exact Hts|];
    simpl; intros a t (H & _); exact H | exact Hne].
  rewrite (sum_from_zero energy_matter_of U (map snd ts)); [|
    apply Forall2_fmap_r; eapply Forall2_impl; [exact Hts|];
    simpl; intros a t (_ & H); exact H | exact Hne].
  cbn [bind]. unfold num_truediv, to_float, len. cbn [bind].
  destruct (float_of_int_exact (Z.of_nat (length U))) as [Hf Hz].
  { split; [|exact Hlen]. destruct U; [congruence|simpl; lia]. }
  rewrite Hf. cbn [bind]. unfold float_div. rewrite Hz. eauto.
Qed.


End Settled.



(** ** What [update_aspect] reads, and what it needs *)

Section Reads.

Context {platform : Platform}.

(** X8: [update_aspect] reads nothing of the aspect but [ring] and
    [stage].  Two aspects that agree on these two get the same
    [activation] and the same [field_vector], or fail with the same
    exception, whatever else they hold; a stored [activation] in
    particular has no influence on the new one. *)
Theorem update_aspect_reads_only_ring_and_stage
    (a1 a2 : dict) (ci cf : float) :
  dict_get a1 "ring" = dict_get a2 "ring" ->
  dict_get a1 "stage" = dict_get a2 "stage" ->
  (forall e : exn,
      update_aspect a1 ci cf = Raise e -> update_aspect a2 ci cf = Raise e)
  /\ (forall a1' : dict,
        update_aspect a1 ci cf = Ok a1' ->
        exists a2' : dict,
          update_aspect a2 ci cf = Ok a2'
          /\ dict_get a2' "activation" = dict_get a1' "activation"
          /\ dict_get a2' "field_vector" = dict_get a1' "field_vector").
Proof.
  intros Hring Hstage.
  assert (Hr : getitem a1 "ring" = getitem a2 "ring")
    by (unfold getitem; now rewrite Hring).
  assert (Hs : getitem a1 "stage" = getitem a2 "stage")
    by (unfold getitem; now rewrite Hstage).
  unfold update_aspect. rewrite Hr, Hs.
  repeat match goal with
         | |- context [Py.bind ?r _] =>
             destruct r; cbn [bind];
             [| split; [intros e' H; exact H | intros a1' H; discriminate H]]
         end.
  split; [intros e' H; discriminate H|].
  intros a1' [= <-]. eexists. split; [reflexivity|].
  rewrite !dict_get_set_eq, !(dict_get_set_ne _ "field_vector") by discriminate.
  now rewrite !dict_get_set_eq.
Qed.

(** X9: what [update_aspect] needs.  An aspect without [ring] or without
    [stage] is a [KeyError]; a [ring] that is not a number is a
    [TypeError]; and an update that succeeds found both, each a number
    (an integer, a boolean or a float). *)
Theorem update_aspect_needs_ring_and_stage (aspect : dict) (ci cf : float) :
  (dict_get aspect "ring" = None \/ dict_get aspect "stage" = None ->
   update_aspect aspect ci cf = Raise KeyError)
  /\ (forall ring stage : value,
        dict_get aspect "ring" = Some ring ->
        dict_get aspect "stage" = Some stage ->
        as_num ring = Raise TypeError ->
        update_aspect aspect ci cf = Raise TypeError)
  /\ (forall aspect' : dict,
        update_aspect aspect ci cf = Ok aspect' ->
        exists (ring stage : value) (r s : num),
          dict_get aspect "ring" = Some ring
          /\ dict_get aspect "stage" = Some stage
          /\ as_num ring = Ok r /\ as_num stage = Ok s).
Proof.
  unfold update_aspect, getitem. split; [|split].
  - intros [H | H].
    + now rewrite H.
    + rewrite H. now destruct (dict_get aspect "ring").
  - intros ring stage Hring Hstage Hnum.
    rewrite Hring, Hstage. cbn [bind]. rewrite float_div_phi. cbn [bind].
    now rewrite Hnum.
  - intros aspect' H.
    destruct (dict_get aspect "ring") as [ring|]; [|discriminate H].
    destruct (dict_get aspect "stage") as [stage|]; [|discriminate H].
    cbn [bind] in H. rewrite float_div_phi in H. cbn [bind] in H.
    destruct (as_num ring) as [r|] eqn:Hr; [|discriminate H].
    cbn [bind] in H.
    destruct (num_truediv r (NInt 8)); [|discriminate H]. cbn [bind] in H.
    destruct (as_num stage) as [s|] eqn:Hs; [|discriminate H].
    now exists ring, stage, r, s.
Qed.

(** The values a successful list comprehension went over were
    dictionaries: [dict] turns an empty list or an empty text into an
    empty dictionary, which has no [ring]. *)
Lemma updated_values_are_dicts (ci cf : float) (vs : list value)
    (U : list dict) :
  mapM (fun aspect => d <- dict_of aspect;; update_aspect d ci cf)%py vs
    = Ok U ->
  exists l : list dict,
    vs = map VDict l /\ mapM (fun d => update_aspect d ci cf) l = Ok U.
Proof.
  revert U. induction vs as [|a vs IH]; simpl; intros U H.
  - exists []. now split.
  - bind_inv H. bind_inv H. injection H as <-.
    destruct (IH _ Hx0) as (l & -> & Hl).
    bind_inv Hx.
    assert (Ha : a = VDict x1).
    { destruct a as [| | | |s|l'|d]; try discriminate Hx1.
      - destruct s; [|discriminate Hx1]. injection Hx1 as <-.
        discriminate Hx.
      - destruct l'; [|discriminate Hx1]. injection Hx1 as <-.
        discriminate Hx.
      - now injection Hx1 as <-. }
    subst a. exists (x1 :: l). split; [reflexivity|].
    simpl. now rewrite Hx, Hl.
Qed.


End Reads.

Lemma update_aspect_needs_ring_and_stage_witness :
  update_aspect (platform := Sample.platform)
                [ ("name", VStr "Awareness"); ("ring", VInt 1) ] 0.96 0.94
  = Raise KeyError.
Proof.
  exact (proj1 (update_aspect_needs_ring_and_stage
                  (platform := Sample.platform)
                  [ ("name", VStr "Awareness"); ("ring", VInt 1) ] 0.96 0.94)
               (or_intror eq_refl)).
Defined.

Lemma map_VDict_inj (l l' : list dict) :
  map VDict l = map VDict l' -> l = l'.
Proof.
  revert l'. induction l as [|d l IH]; intros [|d' l']; simpl;
    try discriminate.
  - reflexivity.
  - intros [= <- H]. f_equal. now apply IH.
Qed.

Lemma update_aspect_reads_only_ring_and_stage_witness :
  exists a2' : dict,
    update_aspect (platform := Sample.platform)
                  [ ("stage", VInt 1); ("activation", VFloat 99);
                    ("ring", VInt 1); ("note", VNone) ] 0.96 0.94 = Ok a2'
    /\ dict_get a2' "activation" = Some (VFloat 4.68).
Proof.
  destruct (update_aspect (platform := Sample.platform)
              (default_aspect 0 "Awareness") 0.96 0.94) as [a1'|e] eqn:E.
  - destruct (proj2 (update_aspect_reads_only_ring_and_stage
                       (platform := Sample.platform)
                       (default_aspect 0 "Awareness")
                       [ ("stage", VInt 1); ("activation", VFloat 99);
                         ("ring", VInt 1); ("note", VNone) ] 0.96 0.94
                       eq_refl eq_refl) a1' E)
      as (a2' & H2 & Hact & _).
    exists a2'. split; [exact H2|]. rewrite Hact.
    vm_compute in E. injection E as <-. reflexivity.
  - vm_compute in E. discriminate.
Defined.


(** ** The range of [normalize] *)

(** X11: [normalize] promises a value in the range 0..1; with the
    bounds the script passes it keeps the promise exactly when the value
    is within the bounds.  For an integer ring or stage of magnitude at
    most 64, [normalize(ring, 1, 8)] and the [G] rounded from it lie in
    0..1 if and only if the ring is in 1..8, and [normalize(stage, 1, 12)]
    and [R] if and only if the stage is in 1..12. *)
Theorem normalize_in_range_iff_within_bounds (z : Z) :
  -64 <= z <= 64 ->
  exists g r : float,
    normalize (NInt z) (NInt 1) (NInt 8) = Ok g
    /\ normalize (NInt z) (NInt 1) (NInt 12) = Ok r
    /\ ((0 <=? g)%float && (g <=? 1)%float = (1 <=? z) && (z <=? 8))
    /\ ((0 <=? py_round g 3)%float && (py_round g 3 <=? 1)%float
        = (1 <=? z) && (z <=? 8))
    /\ ((0 <=? r)%float && (r <=? 1)%float = (1 <=? z) && (z <=? 12))
    /\ ((0 <=? py_round r 3)%float && (py_round r 3 <=? 1)%float
        = (1 <=? z) && (z <=? 12)).
Proof.
  intros Hz.
  pose (inside := fun (x : float) (hi : Z) =>
          Bool.eqb ((0 <=? x)%float && (x <=? 1)%float)
                   ((1 <=? z) && (z <=? hi))
          && Bool.eqb ((0 <=? py_round x 3)%float
                       && (py_round x 3 <=? 1)%float)
                      ((1 <=? z) && (z <=? hi))).
  assert (H : match normalize (NInt z) (NInt 1) (NInt 8),
                    normalize (NInt z) (NInt 1) (NInt 12) with
              | Ok g, Ok r => inside g 8 && inside r 12
              | _, _ => false
              end = true).
  { subst inside. cbv beta. pattern z.
    match goal with
    | |- (fun x => @?P x = true) _ =>
        apply (int_range_forall P); [vm_compute; reflexivity | exact Hz]
    end. }
  destruct (normalize (NInt z) (NInt 1) (NInt 8)) as [g|]; [|discriminate].
  destruct (normalize (NInt z) (NInt 1) (NInt 12)) as [r|]; [|discriminate].
  subst inside. cbv beta in H.
  apply andb_true_iff in H as [Hg Hr].
  apply andb_true_iff in Hg as [Hg1 Hg2], Hr as [Hr1 Hr2].
  apply Bool.eqb_prop in Hg1, Hg2, Hr1, Hr2.
  exists g, r. now repeat split.
Qed.

Lemma normalize_in_range_iff_within_bounds_witness :
  exists g r : float,
    normalize (NInt 9) (NInt 1) (NInt 8) = Ok g
    /\ normalize (NInt 9) (NInt 1) (NInt 12) = Ok r
    /\ ((0 <=? g)%float && (g <=? 1)%float = false)
    /\ ((0 <=? r)%float && (r <=? 1)%float = true).
Proof.
  destruct (normalize_in_range_iff_within_bounds 9 ltac:(lia))
    as (g & r & Hg & Hr & H1 & _ & H2 & _).
  exists g, r. exact (conj Hg (conj Hr (conj H1 H2))).
Defined.

(** ** What a run takes from the codex *)

Section CodexValues.

Context {platform : Platform}.

(** X12: a run that succeeds read a codex that is a dictionary (the
    built-in one when there is no file).  CI is [float] of what the
    codex holds under [coherence_index_CI], be it a float, an integer, a
    boolean or a text, and 0.96 when the key is absent; likewise CF
    with [compassion_constraint_Cf] and 0.94; and the state file carries
    under [codex_reference_signature] whatever the codex holds under
    [codex_sync_signature], of any type, and ["N/A"] when the key is
    absent. *)
Theorem codex_values_are_used
    (TIMESTAMP : string) (σ σ' : fs) (g : globals) :
  script TIMESTAMP σ = (σ', Ok g) ->
  exists codex : dict,
    codex_data g = VDict codex
    /\ (σ !! CODEX_FILE = None -> codex_data g = default_codex)
    /\ (forall v : value,
          σ !! CODEX_FILE = Some (File (Document v)) -> codex_data g = v)
    /\ (dict_get codex "coherence_index_CI" = None -> CI g = 0.96%float)
    /\ (forall v : value,
          dict_get codex "coherence_index_CI" = Some v ->
          py_float v = Ok (CI g))
    /\ (dict_get codex "compassion_constraint_Cf" = None ->
        CF g = 0.94%float)
    /\ (forall v : value,
          dict_get codex "compassion_constraint_Cf" = Some v ->
          py_float v = Ok (CF g))
    /\ (dict_get codex "codex_sync_signature" = None ->
        dict_get (self_clock_state g) "codex_reference_signature"
        = Some (VStr "N/A"))
    /\ (forall v : value,
          dict_get codex "codex_sync_signature" = Some v ->
          dict_get (self_clock_state g) "codex_reference_signature"
          = Some v).
Proof.
  intros Hrun. apply script_Ok_inv in Hrun.
  destruct Hrun as (σ1 & signature & _ & Hcodex & _ & Hci & Hcf & _ & _ & _
                    & _ & Hsig & Hstate & _).
  destruct (codex_data g) as [| | | | | |codex] eqn:Hdata;
    try discriminate Hci.
  exists codex. split; [reflexivity|].
  simpl in Hci, Hcf, Hsig. injection Hsig as <-.
  unfold get_default in *. rewrite Hstate.
  unfold load_json in Hcodex.
  split; [intros E; rewrite E in Hcodex; simpl in Hcodex; congruence|].
  split; [intros v E; rewrite E in Hcodex; simpl in Hcodex; congruence|].
  split; [intros E; rewrite E in Hci; now injection Hci|].
  split; [intros v E; now rewrite E in Hci|].
  split; [intros E; rewrite E in Hcf; now injection Hcf|].
  split; [intros v E; now rewrite E in Hcf|].
  split; intros; simpl; now rewrite H.
Qed.

End CodexValues.

Lemma codex_values_are_used_witness :
  match script (platform := Sample.platform) "2026-01-01T00:00:00Z"
               {[ CODEX_FILE :=
                    File (Document
                            (VDict [ ("coherence_index_CI", VInt 1);
                                     ("codex_sync_signature", VInt 7) ])) ]}
  with
  | (_, Ok g) =>
      CI g = 1%float /\ CF g = 0.94%float
      /\ dict_get (self_clock_state g) "codex_reference_signature"
         = Some (VInt 7)
  | (_, Raise _) => False
  end.
Proof.
  destruct (script _ _) as [σ' [g|e]] eqn:E.
  - destruct (codex_values_are_used (platform := Sample.platform) _ _ σ' g E)
      as (codex & Hdata & _ & Hfile & _ & Hci & Hcf & _ & _ & Hsig).
    specialize (Hfile _ (lookup_singleton_eq _ _)).
    assert (Hcodex : codex = [ ("coherence_index_CI", VInt 1);
                               ("codex_sync_signature", VInt 7) ])
      by congruence.
    subst codex.
    specialize (Hci _ eq_refl). specialize (Hcf eq_refl).
    specialize (Hsig _ eq_refl).
    split; [|split; assumption].
    vm_compute in Hci. now injection Hci.
  - apply (f_equal snd) in E. vm_compute in E. discriminate.
Defined.
